(** * pixpong: the server-authoritative simulation, embedded and verified

  The development follows the Go sources of [internal/game] (ball and
  paddle kinematics, the match state machine) and [internal/server]
  (roster, match start, lobby broadcast).

  Numeric conventions.
  - Go's [int] is the 64-bit two's complement integer.  It is modelled
    by [Z]; every arithmetic operation of the source on an integer that
    is not bounded by a slice length goes through [wrap64].
  - Go's [float64] is modelled by the real numbers [R]: rounding, NaN
    and the infinities are idealised away, [math.Sqrt], [math.Cos],
    [math.Sin] and [math.Pi] are the functions of the real library.
  - [protocol.Team] and [protocol.Direction] are declared [int] in the
    source and are kept as integers here. *)

From Stdlib Require Import ZArith List Bool Lia Reals Lra Permutation String DecimalString.
From stdpp Require Import base list gmap.

Local Open Scope Z_scope.

(** ** Machine integers *)

Module GoInt.

Definition min_int : Z := - 2 ^ 63.
Definition max_int : Z := 2 ^ 63 - 1.

Definition in_range (z : Z) : Prop := min_int <= z <= max_int.

(** Two's complement reduction of a mathematical integer to 64 bits. *)
Definition wrap64 (z : Z) : Z := (z + 2 ^ 63) mod 2 ^ 64 - 2 ^ 63.

Definition add (a b : Z) : Z := wrap64 (a + b).
Definition sub (a b : Z) : Z := wrap64 (a - b).
Definition mul (a b : Z) : Z := wrap64 (a * b).

(** Go's [/] and [%] truncate toward zero. *)
Definition div (a b : Z) : Z := wrap64 (Z.quot a b).
Definition rem (a b : Z) : Z := Z.rem a b.

(** [len] of a slice. *)
Definition len {A} (l : list A) : Z := Z.of_nat (length l).

End GoInt.

(** ** Floating point numbers, idealised *)

Module GoFloat.

Local Open Scope R_scope.

Definition ltb (x y : R) : bool := if Rlt_dec x y then true else false.
Definition leb (x y : R) : bool := if Rle_dec x y then true else false.
Definition gtb (x y : R) : bool := ltb y x.
Definition geb (x y : R) : bool := leb y x.

(** [float64(n)] for an integer [n]. *)
Definition of_int (n : Z) : R := IZR n.

(** [int(x)] for a float [x]: the fractional part is discarded
    (truncation toward zero). *)
Definition to_int (x : R) : Z :=
  if Rle_dec 0 x then Int_part x else (- Int_part (- x))%Z.

End GoFloat.

(** ** package protocol *)

Module protocol.

Definition Direction : Type := Z.
Definition DirNone : Direction := 0.
Definition DirUp : Direction := 1.
Definition DirDown : Direction := 2.

Definition Team : Type := Z.
Definition TeamLeft : Team := 0.
Definition TeamRight : Team := 1.

Record LobbyPlayer : Type := mkLobbyPlayer {
  lp_ID : string;
  lp_Name : string;
  lp_Color : Z
}.

Record LobbyState : Type := mkLobbyState {
  Players : list LobbyPlayer;
  IsHost : bool;
  CanStart : bool;
  ServerAddrs : list string;
  ls_PointsToWin : Z
}.



End protocol.

(** ** package game: the ball *)

Module ball.

Local Open Scope R_scope.

Definition InitialBallSpeed : R := 0.25.
Definition MaxBounceAngle : R := PI / 3.

Record Ball : Type := mkBall {
  X : R;
  Y : R;
  VX : R;
  VY : R
}.

Definition NewBall (x y : R) : Ball := mkBall x y 0 0.

Definition Move (b : Ball) : Ball :=
  mkBall (X b + VX b) (Y b + VY b) (VX b) (VY b).

Definition BounceVertical (b : Ball) : Ball :=
  mkBall (X b) (Y b) (VX b) (- VY b).

(** The hit position on the paddle, clamped into [-1, 1]. *)
Definition relativeHit (b : Ball) (paddleY : R) (paddleHeight : Z) : R :=
  let relativeHit := (Y b - paddleY) / (GoFloat.of_int paddleHeight / 2) in
  let relativeHit := if GoFloat.ltb relativeHit (-1) then -1 else relativeHit in
  let relativeHit := if GoFloat.gtb relativeHit 1 then 1 else relativeHit in
  relativeHit.

Definition BounceOffPaddle (b : Ball) (paddleY : R) (paddleHeight : Z) : Ball :=
  let bounceAngle := relativeHit b paddleY paddleHeight * MaxBounceAngle in
  let speed := sqrt (VX b * VX b + VY b * VY b) in
  let vx :=
    if GoFloat.gtb (VX b) 0
    then - speed * cos bounceAngle
    else speed * cos bounceAngle in
  mkBall (X b) (Y b) vx (speed * sin bounceAngle).

Definition SpeedUp (b : Ball) (factor : R) : Ball :=
  mkBall (X b) (Y b) (VX b * factor) (VY b * factor).

Definition Speed (b : Ball) : R := sqrt (VX b * VX b + VY b * VY b).

(** [Reset] draws one number from [rand.Float64]; the draw is the
    argument [rnd], a value of the half-open interval [0, 1). *)
Definition Reset (b : Ball) (centerX centerY : R) (launchRight : bool)
    (rnd : R) : Ball :=
  let angle := (rnd - 0.5) * PI / 3 in
  let speed := InitialBallSpeed in
  let vx := if launchRight then speed * cos angle else - speed * cos angle in
  mkBall centerX centerY vx (speed * sin angle).

End ball.

(** ** package game: the paddle

    The repository carries four variants of [paddle.go].  [state.go]
    is written against the smoothed one ([TargetY], [Update],
    [ProcessInput]); the other three are kept as modules of their own. *)

(** Smoothed movement: input moves a target, every tick moves the paddle
    a fixed fraction of the way toward it. *)
Module paddle.

Local Open Scope R_scope.

Definition PaddleTargetStep : R := 2.5.
Definition PaddleSmoothSpeed : R := 0.4.

Record Paddle : Type := mkPaddle {
  ID : Z;
  Team : protocol.Team;
  Column : Z;
  Y : R;
  TargetY : R;
  Height : Z;
  Color : Z;
  CourtHeight : Z
}.

Definition NewPaddle (id : Z) (team : protocol.Team) (column color : Z) : Paddle :=
  mkPaddle id team column 0 0 0%Z color 0%Z.

Definition set_Y (p : Paddle) (y : R) : Paddle :=
  mkPaddle (ID p) (Team p) (Column p) y (TargetY p) (Height p) (Color p) (CourtHeight p).

Definition set_TargetY (p : Paddle) (t : R) : Paddle :=
  mkPaddle (ID p) (Team p) (Column p) (Y p) t (Height p) (Color p) (CourtHeight p).

Definition ProcessInput (p : Paddle) (dir : protocol.Direction) : Paddle :=
  let halfHeight := GoFloat.of_int (Height p) / 2 in
  let minY := halfHeight in
  let maxY := GoFloat.of_int (CourtHeight p) - halfHeight in
  if (dir =? protocol.DirUp)%Z then
    let t := TargetY p - PaddleTargetStep in
    set_TargetY p (if GoFloat.ltb t minY then minY else t)
  else if (dir =? protocol.DirDown)%Z then
    let t := TargetY p + PaddleTargetStep in
    set_TargetY p (if GoFloat.gtb t maxY then maxY else t)
  else p.

Definition Update (p : Paddle) : Paddle :=
  let diff := TargetY p - Y p in
  let y := Y p + diff * PaddleSmoothSpeed in
  let halfHeight := GoFloat.of_int (Height p) / 2 in
  let y := if GoFloat.ltb y halfHeight then halfHeight else y in
  let maxY := GoFloat.of_int (CourtHeight p) - halfHeight in
  let y := if GoFloat.gtb y maxY then maxY else y in
  set_Y p y.

Definition ContainsY (p : Paddle) (y : R) : bool :=
  let halfHeight := GoFloat.of_int (Height p) / 2 in
  GoFloat.geb y (Y p - halfHeight) && GoFloat.leb y (Y p + halfHeight).

Definition TopY (p : Paddle) : R := Y p - GoFloat.of_int (Height p) / 2.
Definition BottomY (p : Paddle) : R := Y p + GoFloat.of_int (Height p) / 2.

End paddle.

(** Instant clamped step: [MoveUp] and [MoveDown]. *)
Module paddle_step.

Local Open Scope R_scope.

Definition PaddleMoveAmount : R := 1.5.

Record Paddle : Type := mkPaddle {
  ID : Z;
  Team : protocol.Team;
  Column : Z;
  Y : R;
  Height : Z;
  Color : Z;
  CourtHeight : Z
}.

Definition set_Y (p : Paddle) (y : R) : Paddle :=
  mkPaddle (ID p) (Team p) (Column p) y (Height p) (Color p) (CourtHeight p).

Definition MoveUp (p : Paddle) : Paddle :=
  let halfHeight := GoFloat.of_int (Height p) / 2 in
  let y := Y p - PaddleMoveAmount in
  set_Y p (if GoFloat.ltb y halfHeight then halfHeight else y).

Definition MoveDown (p : Paddle) : Paddle :=
  let halfHeight := GoFloat.of_int (Height p) / 2 in
  let maxY := GoFloat.of_int (CourtHeight p) - halfHeight in
  let y := Y p + PaddleMoveAmount in
  set_Y p (if GoFloat.gtb y maxY then maxY else y).

Definition ProcessInput (p : Paddle) (dir : protocol.Direction) : Paddle :=
  if (dir =? protocol.DirUp)%Z then MoveUp p
  else if (dir =? protocol.DirDown)%Z then MoveDown p
  else p.

End paddle_step.

(** Held direction with a movement timeout: [SetDirection] and [Move]. *)
Module paddle_timeout.

Local Open Scope R_scope.

Definition PaddleSpeed : R := 1.2.
Definition MovementTimeout : Z := 8.

Record Paddle : Type := mkPaddle {
  ID : Z;
  Team : protocol.Team;
  Column : Z;
  Y : R;
  Height : Z;
  Color : Z;
  Direction : protocol.Direction;
  CourtHeight : Z;
  MovementTicks : Z
}.

Definition SetDirection (p : Paddle) (dir : protocol.Direction) : Paddle :=
  mkPaddle (ID p) (Team p) (Column p) (Y p) (Height p) (Color p) dir
    (CourtHeight p)
    (if negb (dir =? protocol.DirNone)%Z then MovementTimeout else MovementTicks p).

Definition Move (p : Paddle) : Paddle :=
  let halfHeight := GoFloat.of_int (Height p) / 2 in
  let y :=
    if (Direction p =? protocol.DirUp)%Z then
      let y := Y p - PaddleSpeed in
      if GoFloat.ltb y halfHeight then halfHeight else y
    else if (Direction p =? protocol.DirDown)%Z then
      let y := Y p + PaddleSpeed in
      let maxY := GoFloat.of_int (CourtHeight p) - halfHeight in
      if GoFloat.gtb y maxY then maxY else y
    else Y p in
  if (MovementTicks p >? 0)%Z then
    let ticks := GoInt.sub (MovementTicks p) 1 in
    mkPaddle (ID p) (Team p) (Column p) y (Height p) (Color p)
      (if (ticks =? 0)%Z then protocol.DirNone else Direction p)
      (CourtHeight p) ticks
  else
    mkPaddle (ID p) (Team p) (Column p) y (Height p) (Color p) (Direction p)
      (CourtHeight p) (MovementTicks p).

End paddle_timeout.

(** One step per key press: [Move] clears the direction. *)
Module paddle_oneshot.

Local Open Scope R_scope.

Definition PaddleSpeed : R := 0.8.

Record Paddle : Type := mkPaddle {
  ID : Z;
  Team : protocol.Team;
  Column : Z;
  Y : R;
  Height : Z;
  Color : Z;
  Direction : protocol.Direction;
  CourtHeight : Z
}.

Definition SetDirection (p : Paddle) (dir : protocol.Direction) : Paddle :=
  mkPaddle (ID p) (Team p) (Column p) (Y p) (Height p) (Color p) dir (CourtHeight p).

Definition Move (p : Paddle) : Paddle :=
  let halfHeight := GoFloat.of_int (Height p) / 2 in
  let y :=
    if (Direction p =? protocol.DirUp)%Z then
      let y := Y p - PaddleSpeed in
      if GoFloat.ltb y halfHeight then halfHeight else y
    else if (Direction p =? protocol.DirDown)%Z then
      let y := Y p + PaddleSpeed in
      let maxY := GoFloat.of_int (CourtHeight p) - halfHeight in
      if GoFloat.gtb y maxY then maxY else y
    else Y p in
  mkPaddle (ID p) (Team p) (Column p) y (Height p) (Color p) protocol.DirNone
    (CourtHeight p).

End paddle_oneshot.

(** ** package game: the match state *)

Module game.

Import protocol.

Definition TickRate : Z := 60.
Definition BaseSpeedCap : R := 1.5%R.
Definition SpeedCapPerPlayer : R := 0.3%R.
Definition SpeedIncrement : R := 1.05%R.
Definition BasePaddleHeight : Z := 5.
Definition MinPaddleHeight : Z := 3.
Definition PaddleHeightPerPlayer : Z := 1.

Record PlayerInfo : Type := mkPlayerInfo {
  pi_ID : Z;
  pi_Name : string
}.

(** [Paddles] is a slice of pointers in the source.  A pointer is
    modelled by the position of its paddle in the list, which is the
    store of all paddles of the match: writing through a pointer is
    [alter] at that position. *)
Record GameState : Type := mkGameState {
  Width : Z;
  Height : Z;
  Ball : ball.Ball;
  Paddles : list paddle.Paddle;
  Players : list PlayerInfo;
  LeftScore : Z;
  RightScore : Z;
  PointsToWin : Z;
  Tick : Z;
  Paused : bool;
  PauseTicksLeft : Z;
  LastScorer : Team;
  WaitingForServe : bool;
  ServingTeam : Team
}.

Definition set_Ball (gs : GameState) (b : ball.Ball) : GameState :=
  mkGameState (Width gs) (Height gs) b (Paddles gs) (Players gs) (LeftScore gs)
    (RightScore gs) (PointsToWin gs) (Tick gs) (Paused gs) (PauseTicksLeft gs)
    (LastScorer gs) (WaitingForServe gs) (ServingTeam gs).

Definition set_Paddles (gs : GameState) (ps : list paddle.Paddle) : GameState :=
  mkGameState (Width gs) (Height gs) (Ball gs) ps (Players gs) (LeftScore gs)
    (RightScore gs) (PointsToWin gs) (Tick gs) (Paused gs) (PauseTicksLeft gs)
    (LastScorer gs) (WaitingForServe gs) (ServingTeam gs).

Definition set_Players (gs : GameState) (pl : list PlayerInfo) : GameState :=
  mkGameState (Width gs) (Height gs) (Ball gs) (Paddles gs) pl (LeftScore gs)
    (RightScore gs) (PointsToWin gs) (Tick gs) (Paused gs) (PauseTicksLeft gs)
    (LastScorer gs) (WaitingForServe gs) (ServingTeam gs).

Definition set_LeftScore (gs : GameState) (n : Z) : GameState :=
  mkGameState (Width gs) (Height gs) (Ball gs) (Paddles gs) (Players gs) n
    (RightScore gs) (PointsToWin gs) (Tick gs) (Paused gs) (PauseTicksLeft gs)
    (LastScorer gs) (WaitingForServe gs) (ServingTeam gs).

Definition set_RightScore (gs : GameState) (n : Z) : GameState :=
  mkGameState (Width gs) (Height gs) (Ball gs) (Paddles gs) (Players gs)
    (LeftScore gs) n (PointsToWin gs) (Tick gs) (Paused gs) (PauseTicksLeft gs)
    (LastScorer gs) (WaitingForServe gs) (ServingTeam gs).

Definition set_Tick (gs : GameState) (n : Z) : GameState :=
  mkGameState (Width gs) (Height gs) (Ball gs) (Paddles gs) (Players gs)
    (LeftScore gs) (RightScore gs) (PointsToWin gs) n (Paused gs)
    (PauseTicksLeft gs) (LastScorer gs) (WaitingForServe gs) (ServingTeam gs).

Definition set_Paused (gs : GameState) (b : bool) : GameState :=
  mkGameState (Width gs) (Height gs) (Ball gs) (Paddles gs) (Players gs)
    (LeftScore gs) (RightScore gs) (PointsToWin gs) (Tick gs) b
    (PauseTicksLeft gs) (LastScorer gs) (WaitingForServe gs) (ServingTeam gs).

Definition set_PauseTicksLeft (gs : GameState) (n : Z) : GameState :=
  mkGameState (Width gs) (Height gs) (Ball gs) (Paddles gs) (Players gs)
    (LeftScore gs) (RightScore gs) (PointsToWin gs) (Tick gs) (Paused gs) n
    (LastScorer gs) (WaitingForServe gs) (ServingTeam gs).

Definition set_LastScorer (gs : GameState) (t : Team) : GameState :=
  mkGameState (Width gs) (Height gs) (Ball gs) (Paddles gs) (Players gs)
    (LeftScore gs) (RightScore gs) (PointsToWin gs) (Tick gs) (Paused gs)
    (PauseTicksLeft gs) t (WaitingForServe gs) (ServingTeam gs).

Definition set_WaitingForServe (gs : GameState) (b : bool) : GameState :=
  mkGameState (Width gs) (Height gs) (Ball gs) (Paddles gs) (Players gs)
    (LeftScore gs) (RightScore gs) (PointsToWin gs) (Tick gs) (Paused gs)
    (PauseTicksLeft gs) (LastScorer gs) b (ServingTeam gs).

Definition set_ServingTeam (gs : GameState) (t : Team) : GameState :=
  mkGameState (Width gs) (Height gs) (Ball gs) (Paddles gs) (Players gs)
    (LeftScore gs) (RightScore gs) (PointsToWin gs) (Tick gs) (Paused gs)
    (PauseTicksLeft gs) (LastScorer gs) (WaitingForServe gs) t.

Definition NewGameState (width height pointsToWin : Z) : GameState :=
  mkGameState width height
    (ball.NewBall (GoFloat.of_int width / 2) (GoFloat.of_int height / 2))
    [] [] 0 0 pointsToWin 0 false 0 TeamLeft false TeamLeft.

(** [AddPlayer] returns the new paddle next to the updated state. *)
Definition AddPlayer (gs : GameState) (id : Z) (name : string)
    : GameState * paddle.Paddle :=
  let color := GoInt.rem (GoInt.sub id 1) 8 in
  let pad := paddle.NewPaddle id TeamLeft 0 color in
  (set_Players (set_Paddles gs (Paddles gs ++ [pad]))
     (Players gs ++ [mkPlayerInfo id name]),
   pad).

(** The position of the first paddle whose [ID] is [id]. *)
Fixpoint lookupID (ps : list paddle.Paddle) (id : Z) : option nat :=
  match ps with
  | [] => None
  | p :: rest =>
      if paddle.ID p =? id then Some 0%nat
      else match lookupID rest id with
           | Some i => Some (S i)
           | None => None
           end
  end.

(** [GetPaddleRef] is the pointer [GetPaddle] returns ([None] for
    [nil]); [GetPaddle] is the paddle it points to. *)
Definition GetPaddleRef (gs : GameState) (id : Z) : option nat :=
  lookupID (Paddles gs) id.

Definition GetPaddle (gs : GameState) (id : Z) : option paddle.Paddle :=
  match GetPaddleRef gs id with
  | Some i => Paddles gs !! i
  | None => None
  end.

Definition CalculatePaddleHeight (playersPerSide : Z) : Z :=
  let height :=
    GoInt.sub BasePaddleHeight
      (GoInt.mul (GoInt.sub playersPerSide 1) PaddleHeightPerPlayer) in
  if height <? MinPaddleHeight then MinPaddleHeight else height.

Definition GetSpeedCap (playersPerSide : Z) : R :=
  (BaseSpeedCap + GoFloat.of_int (GoInt.sub playersPerSide 1) * SpeedCapPerPlayer)%R.

(** The loop of [assignTeamPaddles]: [i] is the loop index, [ptrs] the
    pointers still to visit. *)
Fixpoint assignTeamPaddles_loop (gsHeight : Z) (team : Team) (height : Z)
    (columnStart columnSpacing : Z) (i : Z) (ptrs : list nat)
    (store : list paddle.Paddle) : list paddle.Paddle :=
  match ptrs with
  | [] => store
  | ptr :: rest =>
      let centerY := (GoFloat.of_int gsHeight / 2)%R in
      let write (p : paddle.Paddle) :=
        paddle.mkPaddle (paddle.ID p) team
          (GoInt.add columnStart (GoInt.mul (i + 1) columnSpacing))
          centerY centerY height (paddle.Color p) gsHeight in
      assignTeamPaddles_loop gsHeight team height columnStart columnSpacing
        (i + 1) rest (alter write ptr store)
  end.

Definition assignTeamPaddles (gs : GameState) (paddles : list nat) (team : Team)
    (height : Z) : GameState :=
  let count := GoInt.len paddles in
  if count =? 0 then gs
  else
    let columnStart :=
      if team =? TeamLeft then 1 else GoInt.div (GoInt.mul (Width gs) 3) 4 in
    let columnEnd :=
      if team =? TeamLeft then GoInt.div (Width gs) 4 else GoInt.sub (Width gs) 1 in
    let columnRange := GoInt.sub columnEnd columnStart in
    let columnSpacing := GoInt.div columnRange (count + 1) in
    let columnSpacing := if columnSpacing <? 1 then 1 else columnSpacing in
    set_Paddles gs
      (assignTeamPaddles_loop (Height gs) team height columnStart columnSpacing
         0 paddles (Paddles gs)).

(** [AssignTeams] consumes three random draws: the outcome [shuffled]
    of [rand.Shuffle] on the copy of [gs.Paddles] (the pointers in their
    shuffled order), the result [coin] of [rand.Intn(2)], and the
    [rand.Float64] draw [rnd] used by [Ball.Reset]. *)
Definition AssignTeams (gs : GameState) (shuffled : list nat) (coin : Z)
    (rnd : R) : GameState :=
  if GoInt.len (Paddles gs) =? 0 then gs
  else
    let halfCount := Z.to_nat (Z.quot (GoInt.len shuffled) 2) in
    let leftTeam := take halfCount shuffled in
    let rightTeam := drop halfCount shuffled in
    let leftPaddleHeight := CalculatePaddleHeight (GoInt.len leftTeam) in
    let rightPaddleHeight := CalculatePaddleHeight (GoInt.len rightTeam) in
    let gs := assignTeamPaddles gs leftTeam TeamLeft leftPaddleHeight in
    let gs := assignTeamPaddles gs rightTeam TeamRight rightPaddleHeight in
    let launchRight := coin =? 0 in
    set_Ball gs
      (ball.Reset (Ball gs) (GoFloat.of_int (Width gs) / 2)
         (GoFloat.of_int (Height gs) / 2) launchRight rnd).

Definition ProcessInput (gs : GameState) (playerID : Z) (dir : Direction)
    : GameState :=
  match GetPaddleRef gs playerID with
  | Some i => set_Paddles gs (alter (fun p => paddle.ProcessInput p dir) i (Paddles gs))
  | None => gs
  end.

(** The counter is bounded by [len(gs.Paddles)] and cannot wrap. *)
Fixpoint countTeam (ps : list paddle.Paddle) (team : Team) : Z :=
  match ps with
  | [] => 0
  | p :: rest =>
      (if paddle.Team p =? team then 1 else 0) + countTeam rest team
  end.

Definition countPlayersOnSide (gs : GameState) (team : Team) : Z :=
  countTeam (Paddles gs) team.

(** What [checkPaddleCollisions] does to the ball once a paddle is hit. *)
Definition hitPaddle (gs : GameState) (p : paddle.Paddle) : GameState :=
  let b := ball.BounceOffPaddle (Ball gs) (paddle.Y p) (paddle.Height p) in
  let b := ball.SpeedUp b SpeedIncrement in
  let playersPerSide := countPlayersOnSide gs (paddle.Team p) in
  let speedCap := GetSpeedCap playersPerSide in
  let b :=
    if GoFloat.gtb (ball.Speed b) speedCap then
      let scale := (speedCap / ball.Speed b)%R in
      ball.mkBall (ball.X b) (ball.Y b) (ball.VX b * scale)%R (ball.VY b * scale)%R
    else b in
  set_Ball gs b.

(** The loop of [checkPaddleCollisions] over the paddles still to
    visit: [continue] moves on, the [break] after a hit ends it. *)
Fixpoint checkPaddleCollisions_loop (gs : GameState) (ps : list paddle.Paddle)
    : GameState :=
  match ps with
  | [] => gs
  | p :: rest =>
      let ballCol := GoFloat.to_int (ball.X (Ball gs)) in
      if negb (ballCol =? paddle.Column p) then checkPaddleCollisions_loop gs rest
      else if negb (paddle.ContainsY p (ball.Y (Ball gs))) then
        checkPaddleCollisions_loop gs rest
      else if (paddle.Team p =? TeamLeft) && GoFloat.gtb (ball.VX (Ball gs)) 0 then
        checkPaddleCollisions_loop gs rest
      else if (paddle.Team p =? TeamRight) && GoFloat.ltb (ball.VX (Ball gs)) 0 then
        checkPaddleCollisions_loop gs rest
      else hitPaddle gs p
  end.

Definition checkPaddleCollisions (gs : GameState) : GameState :=
  checkPaddleCollisions_loop gs (Paddles gs).

Definition startPause (gs : GameState) : GameState :=
  set_PauseTicksLeft (set_Paused gs true) TickRate.

Definition CheckScore (gs : GameState) : GameState :=
  let gs :=
    if GoFloat.ltb (ball.X (Ball gs)) 0 then
      startPause
        (set_LastScorer (set_RightScore gs (GoInt.add (RightScore gs) 1)) TeamRight)
    else gs in
  let gs :=
    if GoFloat.gtb (ball.X (Ball gs)) (GoFloat.of_int (Width gs)) then
      startPause
        (set_LastScorer (set_LeftScore gs (GoInt.add (LeftScore gs) 1)) TeamLeft)
    else gs in
  gs.

(** The wall bounce of [Update]. *)
Definition wallBounce (gs : GameState) : GameState :=
  let b := Ball gs in
  if GoFloat.leb (ball.Y b) 0 || GoFloat.geb (ball.Y b) (GoFloat.of_int (Height gs))
  then
    let b := ball.BounceVertical b in
    let b :=
      if GoFloat.ltb (ball.Y b) 0
      then ball.mkBall (ball.X b) 0%R (ball.VX b) (ball.VY b) else b in
    let b :=
      if GoFloat.gtb (ball.Y b) (GoFloat.of_int (Height gs))
      then ball.mkBall (ball.X b) (GoFloat.of_int (Height gs)) (ball.VX b) (ball.VY b)
      else b in
    set_Ball gs b
  else gs.

Definition Update (gs : GameState) : GameState :=
  let gs := set_Tick gs (GoInt.add (Tick gs) 1) in
  if Paused gs then
    let gs := set_PauseTicksLeft gs (GoInt.sub (PauseTicksLeft gs) 1) in
    if PauseTicksLeft gs <=? 0 then
      let gs := set_Paused gs false in
      let gs := set_PauseTicksLeft gs 0 in
      let gs := set_WaitingForServe gs true in
      let gs := set_ServingTeam gs (LastScorer gs) in
      set_Ball gs
        (ball.mkBall (GoFloat.of_int (Width gs) / 2) (GoFloat.of_int (Height gs) / 2)
           0 0)
    else gs
  else
    let gs := set_Paddles gs (map paddle.Update (Paddles gs)) in
    if WaitingForServe gs then gs
    else
      let gs := set_Ball gs (ball.Move (Ball gs)) in
      let gs := wallBounce gs in
      let gs := checkPaddleCollisions gs in
      CheckScore gs.

(** [Serve] returns its boolean result next to the state it leaves;
    [rnd] is the [rand.Float64] draw of [Ball.Reset]. *)
Definition Serve (gs : GameState) (playerID : Z) (rnd : R) : bool * GameState :=
  if negb (WaitingForServe gs) then (false, gs)
  else
    match GetPaddle gs playerID with
    | None => (false, gs)
    | Some pad =>
        if negb (paddle.Team pad =? ServingTeam gs) then (false, gs)
        else
          let launchRight := ServingTeam gs =? TeamLeft in
          let gs :=
            set_Ball gs
              (ball.Reset (Ball gs) (GoFloat.of_int (Width gs) / 2)
                 (GoFloat.of_int (Height gs) / 2) launchRight rnd) in
          (true, set_WaitingForServe gs false)
    end.

Definition IsGameOver (gs : GameState) : bool :=
  (LeftScore gs >=? PointsToWin gs) || (RightScore gs >=? PointsToWin gs).

Definition GetWinner (gs : GameState) : Team :=
  if LeftScore gs >=? PointsToWin gs then TeamLeft else TeamRight.

End game.

(** ** package server *)

Module server.

Definition MinTermWidth : Z := 40.
Definition MinTermHeight : Z := 20.

(** [fmt.Sprintf("%d", n)]. *)
Definition sprint_d (n : Z) : string := NilZero.string_of_int (Z.to_int n).

Record Client : Type := mkClient {
  ID : Z;
  Name : string;
  Width : Z;
  Height : Z;
  PlayerID : Z
}.

Record JoinRequest : Type := mkJoinRequest {
  PlayerName : string;
  TerminalWidth : Z;
  TerminalHeight : Z
}.

(** The fields of [Server] that the modelled operations read or write;
    [cfg_Port] and [cfg_PointsToWin] are the two fields of [cfg] in use. *)
Record Server : Type := mkServer {
  cfg_Port : Z;
  cfg_PointsToWin : Z;
  clients : gmap Z Client;
  nextID : Z;
  gameState : option game.GameState;
  inLobby : bool;
  inRematch : bool;
  rematchReady : gmap Z bool;
  minWidth : Z;
  minHeight : Z
}.

Definition NewServer (port pointsToWin : Z) : Server :=
  mkServer port pointsToWin ∅ 1 None true false ∅ MinTermWidth MinTermHeight.

(** Go leaves the iteration order of [range] over a map unspecified, and
    it may differ from one loop to the next.  A loop over [s.clients]
    therefore takes the order it visits the keys in as an argument;
    [range_order] says that the argument is an enumeration of the keys. *)
Definition range_order (m : gmap Z Client) (order : list Z) : Prop :=
  order ≡ₚ (map_to_list m).*1.

Definition range_clients (m : gmap Z Client) (order : list Z)
    : list (Z * Client) :=
  omap (fun k => match m !! k with Some c => Some (k, c) | None => None end) order.

(** The path of [handleConnection] on which the join request arrives and
    every write to the connection succeeds.  The result is the new
    server state and whether the client was admitted. *)
Definition handleConnection (s : Server) (joinReq : JoinRequest) : Server * bool :=
  if negb (inLobby s) && negb (inRematch s) then (s, false)
  else
    let clientID := nextID s in
    let s :=
      mkServer (cfg_Port s) (cfg_PointsToWin s) (clients s) (GoInt.add (nextID s) 1)
        (gameState s) (inLobby s) (inRematch s) (rematchReady s) (minWidth s)
        (minHeight s) in
    if (TerminalWidth joinReq <? MinTermWidth) || (TerminalHeight joinReq <? MinTermHeight)
    then (s, false)
    else
      let name :=
        if String.eqb (PlayerName joinReq) EmptyString
        then String.append "Player" (sprint_d clientID)
        else PlayerName joinReq in
      let client :=
        mkClient clientID name (TerminalWidth joinReq) (TerminalHeight joinReq)
          clientID in
      (mkServer (cfg_Port s) (cfg_PointsToWin s) (<[clientID := client]> (clients s))
         (nextID s) (gameState s) (inLobby s) (inRematch s) (rematchReady s)
         (if Width client <? minWidth s then Width client else minWidth s)
         (if Height client <? minHeight s then Height client else minHeight s),
       true).

(** The minimum loop of [StartGame], from the seeds [w] and [h]. *)
Definition minTermSize (w h : Z) (cs : list (Z * Client)) : Z * Z :=
  foldl
    (fun (acc : Z * Z) (kc : Z * Client) =>
       (if Width kc.2 <? acc.1 then Width kc.2 else acc.1,
        if Height kc.2 <? acc.2 then Height kc.2 else acc.2))
    (w, h) cs.

(** [StartGame] ranges over [s.clients] twice ([order1], [order2]) and
    passes the three random draws of [AssignTeams] on. *)
Definition StartGame (s : Server) (order1 order2 : list Z) (shuffled : list nat)
    (coin : Z) (rnd : R) : Server :=
  if Z.of_nat (size (clients s)) <? 2 then s
  else
    let '(minW, minH) :=
      minTermSize MinTermWidth MinTermHeight (range_clients (clients s) order1) in
    let gs := game.NewGameState minW minH (cfg_PointsToWin s) in
    let gs :=
      foldl (fun gs (kc : Z * Client) => (game.AddPlayer gs (ID kc.2) (Name kc.2)).1)
        gs (range_clients (clients s) order2) in
    let gs := game.AssignTeams gs shuffled coin rnd in
    mkServer (cfg_Port s) (cfg_PointsToWin s) (clients s) (nextID s) (Some gs)
      false false (rematchReady s) minW minH.

(** The messages [handleMessage] acts on while a match may be active. *)
Inductive Message : Type :=
  | MsgPlayerInput (dir : protocol.Direction)
  | MsgServe
  | MsgOther.

Definition set_gameState (s : Server) (g : option game.GameState) : Server :=
  mkServer (cfg_Port s) (cfg_PointsToWin s) (clients s) (nextID s) g (inLobby s)
    (inRematch s) (rematchReady s) (minWidth s) (minHeight s).

Definition handleMessage (s : Server) (client : Client) (msg : Message) (rnd : R)
    : Server :=
  match msg with
  | MsgPlayerInput dir =>
      match gameState s with
      | Some gs => set_gameState s (Some (game.ProcessInput gs (PlayerID client) dir))
      | None => s
      end
  | MsgServe =>
      match gameState s with
      | Some gs => set_gameState s (Some (game.Serve gs (PlayerID client) rnd).2)
      | None => s
      end
  | MsgOther => s
  end.

(** The host's network interfaces as [GetServerAddresses] sees them. *)
Record IP : Type := mkIP {
  To4 : bool;
  ip_String : string
}.

Inductive Addr : Type :=
  | IPNet (ip : option IP)
  | IPAddr (ip : option IP)
  | OtherAddr.

Record Interface : Type := mkInterface {
  FlagLoopback : bool;
  FlagUp : bool;
  Addrs : option (list Addr)
}.

Definition addrIP (a : Addr) : option IP :=
  match a with
  | IPNet ip => ip
  | IPAddr ip => ip
  | OtherAddr => None
  end.

(** [interfaces] is the result of [net.Interfaces()], [None] for an
    error; likewise [Addrs]. *)
Definition GetServerAddresses (s : Server) (interfaces : option (list Interface))
    : list string :=
  match interfaces with
  | None => []
  | Some ifs =>
      flat_map
        (fun iface =>
           if FlagLoopback iface || negb (FlagUp iface) then []
           else
             match Addrs iface with
             | None => []
             | Some addrs =>
                 omap
                   (fun a =>
                      match addrIP a with
                      | Some ip =>
                          if To4 ip
                          then Some (String.append (ip_String ip)
                                       (String.append ":" (sprint_d (cfg_Port s))))
                          else None
                      | None => None
                      end)
                   addrs
             end)
        ifs
  end.

(** [BroadcastLobbyState] ranges over [s.clients] twice: [order1] builds
    the player list, [order2] sends.  The result lists, in sending
    order, the key of each receiving client and the payload handed to
    its [Send]. *)
Definition BroadcastLobbyState (s : Server) (interfaces : option (list Interface))
    (order1 order2 : list Z) : list (Z * protocol.LobbyState) :=
  let players :=
    map
      (fun kc : Z * Client =>
         protocol.mkLobbyPlayer (sprint_d (ID kc.2)) (Name kc.2)
           (GoInt.rem (GoInt.sub (ID kc.2) 1) 8))
      (range_clients (clients s) order1) in
  let addresses := GetServerAddresses s interfaces in
  let canStart := Z.of_nat (size (clients s)) >=? 2 in
  map
    (fun kc : Z * Client =>
       let isHost := ID kc.2 =? 1 in
       (kc.1,
        protocol.mkLobbyState players isHost canStart
          (if isHost then addresses else []) (cfg_PointsToWin s)))
    (range_clients (clients s) order2).

(** The payload sent to the client stored under [k], if any. *)
Definition payload_for (sends : list (Z * protocol.LobbyState)) (k : Z)
    : option protocol.LobbyState :=
  match List.find (fun kp : Z * protocol.LobbyState => kp.1 =? k) sends with
  | Some kp => Some kp.2
  | None => None
  end.

(** Which broadcast follows a state change. *)
Inductive Broadcast : Type :=
  | LobbyBroadcast
  | RematchBroadcast.

(** [handleDisconnect]: the state it leaves and the broadcast it
    issues, [None] when the client is not in the roster. *)
Definition handleDisconnect (s : Server) (clientID : Z) : Server * option Broadcast :=
  match clients s !! clientID with
  | None => (s, None)
  | Some _ =>
      let s :=
        mkServer (cfg_Port s) (cfg_PointsToWin s) (delete clientID (clients s))
          (nextID s) (gameState s) (inLobby s) (inRematch s)
          (delete clientID (rematchReady s)) (minWidth s) (minHeight s) in
      let wasInGame :=
        match gameState s with
        | Some _ => negb (inLobby s) && negb (inRematch s)
        | None => false
        end in
      if wasInGame then
        (mkServer (cfg_Port s) (cfg_PointsToWin s) (clients s) (nextID s) None true
           (inRematch s) (rematchReady s) (minWidth s) (minHeight s),
         Some LobbyBroadcast)
      else if inRematch s then (s, Some RematchBroadcast)
      else (s, Some LobbyBroadcast)
  end.

Definition removeClient (s : Server) (clientID : Z) : Server :=
  match clients s !! clientID with
  | None => s
  | Some _ =>
      mkServer (cfg_Port s) (cfg_PointsToWin s) (delete clientID (clients s))
        (nextID s) (gameState s) (inLobby s) (inRematch s)
        (delete clientID (rematchReady s)) (minWidth s) (minHeight s)
  end.

Definition ResetForRematch (s : Server) : Server :=
  mkServer (cfg_Port s) (cfg_PointsToWin s) (clients s) (nextID s) None false true
    ∅ (minWidth s) (minHeight s).

(** The state change of [SetClientRematchReady]; a
    [BroadcastRematchState] follows it. *)
Definition SetClientRematchReady (s : Server) (clientID : Z) : Server :=
  mkServer (cfg_Port s) (cfg_PointsToWin s) (clients s) (nextID s) (gameState s)
    (inLobby s) (inRematch s) (<[clientID := true]> (rematchReady s)) (minWidth s)
    (minHeight s).



(** One iteration of [gameLoop] on the server state: nothing without a
    match, otherwise [Update]; the boolean is [gameOver], on which the
    loop calls [broadcastGameOver] and ends. *)
Definition gameTick (s : Server) : Server * bool :=
  match gameState s with
  | None => (s, false)
  | Some gs =>
      let gs := game.Update gs in
      (set_gameState s (Some gs), game.IsGameOver gs)
  end.


End server.

(** ** package config *)

Module config.

Definition DefaultPort : Z := 5555.
Definition DefaultPoints : Z := 10.

Record Config : Type := mkConfig {
  IsServer : bool;
  ServerAddr : string;
  Port : Z;
  PointsToWin : Z;
  PlayerName : string
}.

(** The values the flag set holds after a successful [fs.Parse]. *)
Record Flags : Type := mkFlags {
  flag_server : bool;
  flag_join : string;
  flag_port : Z;
  flag_points : Z;
  flag_name : string
}.

(** [ParseArgs] after the flag package has done its part: [parsed] is
    the outcome of [fs.Parse], either its error or the flag values.
    The result is the configuration or the error message. *)
Definition ParseArgs (parsed : string + Flags) : Config + string :=
  match parsed with
  | inl err => inr err
  | inr f =>
      if flag_server f && negb (String.eqb (flag_join f) EmptyString) then
        inr "cannot specify both --server and --join"%string
      else if negb (flag_server f) && String.eqb (flag_join f) EmptyString then
        inr "must specify either --server or --join"%string
      else if (flag_port f <? 1) || (flag_port f >? 65535) then
        inr (String.append "port must be between 1 and 65535, got "
               (server.sprint_d (flag_port f)))
      else if flag_points f <? 1 then
        inr (String.append "points must be at least 1, got "
               (server.sprint_d (flag_points f)))
      else
        inl (mkConfig (flag_server f) (flag_join f) (flag_port f) (flag_points f)
               (flag_name f))
  end.

End config.

(** * Specification vocabulary *)

(** The vertical range a paddle of height [h] may occupy in a court of
    height [ch]: its centre stays half a paddle away from both walls. *)
Definition in_court (h ch : Z) (y : R) : Prop :=
  (GoFloat.of_int h / 2 <= y <= GoFloat.of_int ch - GoFloat.of_int h / 2)%R.

(** A paddle that fits its court and sits inside it. *)
Definition fits (p : paddle.Paddle) : Prop :=
  0 < paddle.Height p <= paddle.CourtHeight p /\
  in_court (paddle.Height p) (paddle.CourtHeight p) (paddle.Y p).


(** A match state of an 80 by 24 court with the ball half a cell past
    the left goal line. *)
Definition past_left_example : game.GameState :=
  game.set_Ball (game.NewGameState 80 24 10) (ball.mkBall (-0.5) 12 (-0.25) 0).


(** A fresh 80 by 24 match state: no serve is pending. *)
Definition fresh_example : game.GameState := game.NewGameState 80 24 10.

(** Two players after the post-score pause: the left player (id 1)
    serves, the right player (id 2) does not. *)
Definition serve_example : game.GameState :=
  game.mkGameState 80 24 (ball.mkBall 40 12 0 0)
    [paddle.mkPaddle 1 protocol.TeamLeft 10 12 12 5 0 24;
     paddle.mkPaddle 2 protocol.TeamRight 69 12 12 5 1 24]
    [game.mkPlayerInfo 1 "a"; game.mkPlayerInfo 2 "b"]
    1 0 10 100 false 0 protocol.TeamLeft true protocol.TeamLeft.

(** One paddle per variant, height 5 in a court of height 24: the
    smoothed one heads for a target above the court, the stepping one
    sits at the top wall, the two direction-holding ones sit at the
    bottom wall and move down. *)
Definition smooth_example : paddle.Paddle :=
  paddle.mkPaddle 1 protocol.TeamLeft 10 3 (-40) 5 0 24.

Definition step_example : paddle_step.Paddle :=
  paddle_step.mkPaddle 1 protocol.TeamLeft 10 2.5 5 0 24.

Definition timeout_example : paddle_timeout.Paddle :=
  paddle_timeout.mkPaddle 1 protocol.TeamLeft 10 21.5 5 0 protocol.DirDown 24 8.

Definition oneshot_example : paddle_oneshot.Paddle :=
  paddle_oneshot.mkPaddle 1 protocol.TeamLeft 10 21.5 5 0 protocol.DirDown 24.

(** The number of occurrences of the team [t] in a list of team tags. *)
Fixpoint countOf (ts : list protocol.Team) (t : protocol.Team) : Z :=
  match ts with
  | [] => 0
  | x :: rest => (if x =? t then 1 else 0) + countOf rest t
  end.

(** Writing the tag [t] through each pointer of [ptrs] in turn. *)
Definition tagAll (t : protocol.Team) (ts : list protocol.Team) (ptrs : list nat)
    : list protocol.Team :=
  foldl (fun ts ptr => alter (fun _ => t) ptr ts) ts ptrs.

(** Four players before team assignment, and one outcome of the
    shuffle. *)
Definition four_players : game.GameState :=
  (game.AddPlayer
     (game.AddPlayer
        (game.AddPlayer (game.AddPlayer (game.NewGameState 80 24 10) 1 "P1").1 2 "P2").1
        3 "P3").1
     4 "P4").1.

Definition four_shuffle : list nat := [2; 0; 3; 1]%nat.

(** The state [StartGame] hands to [AssignTeams]: a fresh state with
    one paddle per player of the roster. *)
Definition withPlayers (width height pointsToWin : Z) (roster : list (Z * string))
    : game.GameState :=
  foldl (fun gs (pl : Z * string) => (game.AddPlayer gs pl.1 pl.2).1)
    (game.NewGameState width height pointsToWin) roster.

(** The states of a match: the state [AssignTeams] leaves at match
    start, for any roster (a Go slice, hence of a length that fits an
    [int]) and any random draws, and every state [Update],
    [ProcessInput] and [Serve] lead to from there. *)
Inductive reachable : game.GameState -> Prop :=
  | reach_start (width height pointsToWin : Z) (roster : list (Z * string))
      (shuffled : list nat) (coin : Z) (rnd : R) :
      Z.of_nat (length roster) <= GoInt.max_int ->
      shuffled ≡ₚ seq 0 (length roster) ->
      0 <= coin < 2 ->
      (0 <= rnd < 1)%R ->
      reachable
        (game.AssignTeams (withPlayers width height pointsToWin roster) shuffled
           coin rnd)
  | reach_Update (gs : game.GameState) :
      reachable gs -> reachable (game.Update gs)
  | reach_ProcessInput (gs : game.GameState) (playerID : Z)
      (dir : protocol.Direction) :
      reachable gs -> reachable (game.ProcessInput gs playerID dir)
  | reach_Serve (gs : game.GameState) (playerID : Z) (rnd : R) :
      (0 <= rnd < 1)%R ->
      reachable gs -> reachable (game.Serve gs playerID rnd).2.

(** The team tags of the paddles of a state, in store order. *)
Definition teams (gs : game.GameState) : list protocol.Team :=
  paddle.Team <$> game.Paddles gs.


(** A 1v1 match right after [AssignTeams]. *)
Definition duel_start : game.GameState :=
  game.AssignTeams (withPlayers 80 24 10 [(1, "P1"%string); (2, "P2"%string)])
    [1; 0]%nat 0 0.

(** A lobby with two admitted clients, both advertising an 80 by 24
    terminal. *)
Definition lobby_80x24 : server.Server :=
  (server.handleConnection
     (server.handleConnection (server.NewServer 5555 10)
        (server.mkJoinRequest "ann" 80 24)).1
     (server.mkJoinRequest "bob" 80 24)).1.

(** A ball moving right and up at speed 5, and one just served. *)
Definition fast_ball : ball.Ball := ball.mkBall 40 12 3 (-4).

(** A held direction that has just been set on a paddle in mid-court. *)
Definition held_example : paddle_timeout.Paddle :=
  paddle_timeout.SetDirection
    (paddle_timeout.mkPaddle 1 protocol.TeamLeft 10 12 5 0 protocol.DirNone 24 0)
    protocol.DirUp.



(** The state one tick after the right team scored in [serve_example]'s
    match: paused for a full [TickRate] ticks. *)
Definition paused_example : game.GameState :=
  game.mkGameState 80 24 (ball.mkBall (-0.5) 12 (-0.25) 0)
    [paddle.mkPaddle 1 protocol.TeamLeft 10 12 12 5 0 24;
     paddle.mkPaddle 2 protocol.TeamRight 69 12 12 5 1 24]
    [game.mkPlayerInfo 1 "a"; game.mkPlayerInfo 2 "b"]
    0 1 10 100 true 60 protocol.TeamRight false protocol.TeamLeft.

(** A match state with the ball past the right goal line and the left
    team one point short of the target. *)
Definition match_point_example : game.GameState :=
  game.mkGameState 80 24 (ball.mkBall 80.5 12 0.25 0) [] [] 9 3 10 500 false 0
    protocol.TeamRight false protocol.TeamLeft.

(** A finished match: the left team has reached the target of 10. *)
Definition finished_example : game.GameState :=
  game.mkGameState 80 24 (ball.mkBall 80.5 12 0.25 0) [] [] 10 3 10 500 true 60
    protocol.TeamLeft false protocol.TeamLeft.

(** What [assignTeamPaddles] writes through the [i]-th pointer of a
    team of [count] paddles in a court of the given size; [p0] is the
    paddle before the write. *)
Definition assignedPaddle (width height : Z) (team : protocol.Team) (count i : Z)
    (p0 : paddle.Paddle) : paddle.Paddle :=
  let columnStart :=
    if team =? protocol.TeamLeft then 1 else GoInt.div (GoInt.mul width 3) 4 in
  let columnEnd :=
    if team =? protocol.TeamLeft then GoInt.div width 4 else GoInt.sub width 1 in
  let columnSpacing := GoInt.div (GoInt.sub columnEnd columnStart) (count + 1) in
  let columnSpacing := if columnSpacing <? 1 then 1 else columnSpacing in
  paddle.mkPaddle (paddle.ID p0) team
    (GoInt.add columnStart (GoInt.mul (i + 1) columnSpacing))
    (GoFloat.of_int height / 2) (GoFloat.of_int height / 2)
    (game.CalculatePaddleHeight count) (paddle.Color p0) height.

(** The states of the server: a new server, and every state reached
    from one by a join, a disconnect, a match start (with iteration
    orders that enumerate the roster and a shuffle that permutes its
    paddles), a client message, a tick of the game loop, the reset after
    a finished match, and a rematch-ready mark. *)
Inductive server_reachable : server.Server -> Prop :=
  | sr_new (port pointsToWin : Z) :
      server_reachable (server.NewServer port pointsToWin)
  | sr_join (s : server.Server) (joinReq : server.JoinRequest) :
      server_reachable s -> server_reachable (server.handleConnection s joinReq).1
  | sr_leave (s : server.Server) (clientID : Z) :
      server_reachable s -> server_reachable (server.handleDisconnect s clientID).1
  | sr_start (s : server.Server) (order1 order2 : list Z) (shuffled : list nat)
      (coin : Z) (rnd : R) :
      server_reachable s ->
      server.range_order (server.clients s) order1 ->
      server.range_order (server.clients s) order2 ->
      shuffled ≡ₚ seq 0 (size (server.clients s)) ->
      server_reachable (server.StartGame s order1 order2 shuffled coin rnd)
  | sr_message (s : server.Server) (client : server.Client) (msg : server.Message)
      (rnd : R) :
      server_reachable s -> server_reachable (server.handleMessage s client msg rnd)
  | sr_tick (s : server.Server) :
      server_reachable s -> server_reachable (server.gameTick s).1
  | sr_over (s : server.Server) :
      server_reachable s -> server_reachable (server.ResetForRematch s)
  | sr_ready (s : server.Server) (clientID : Z) :
      server_reachable s -> server_reachable (server.SetClientRematchReady s clientID).

(** What every state of the server satisfies: the roster is keyed by
    client ID and holds admitted clients only; lobby and rematch exclude
    each other; a match exists exactly when the server is in neither,
    and its paddles are the paddles of the roster. *)
Definition server_inv (s : server.Server) : Prop :=
  (forall k c, server.clients s !! k = Some c ->
     server.ID c = k /\ server.PlayerID c = k /\
     server.MinTermWidth <= server.Width c /\ server.MinTermHeight <= server.Height c) /\
  match server.gameState s with
  | Some gs =>
      server.inLobby s = false /\ server.inRematch s = false /\
      paddle.ID <$> game.Paddles gs ≡ₚ (map_to_list (server.clients s)).*1
  | None =>
      (server.inLobby s = true /\ server.inRematch s = false) \/
      (server.inLobby s = false /\ server.inRematch s = true)
  end.

(** The match [StartGame] creates for the two-client lobby. *)
Definition match_80x24 : server.Server :=
  server.StartGame lobby_80x24 [1; 2] [1; 2] [1; 0]%nat 0 0.


(** Flag values of a host and of a caller naming both roles. *)
Definition host_flags : config.Flags := config.mkFlags true "" 5555 10 "ann".

(** * Properties *)

(** ** Integers and comparisons *)

Lemma wrap64_in_range (z : Z) : GoInt.in_range z -> GoInt.wrap64 z = z.
Proof.
  unfold GoInt.in_range, GoInt.wrap64, GoInt.min_int, GoInt.max_int.
  intros Hz. rewrite Z.mod_small; lia.
Qed.

Lemma ltb_spec (x y : R) : GoFloat.ltb x y = true <-> (x < y)%R.
Proof. unfold GoFloat.ltb. destruct (Rlt_dec x y); split; intros; try easy. Qed.

Lemma leb_spec (x y : R) : GoFloat.leb x y = true <-> (x <= y)%R.
Proof. unfold GoFloat.leb. destruct (Rle_dec x y); split; intros; try easy. Qed.

Lemma ltb_false (x y : R) : GoFloat.ltb x y = false <-> (y <= x)%R.
Proof.
  unfold GoFloat.ltb. destruct (Rlt_dec x y); split; intros; try easy; lra.
Qed.

Lemma gtb_spec (x y : R) : GoFloat.gtb x y = true <-> (y < x)%R.
Proof. apply ltb_spec. Qed.

Lemma gtb_false (x y : R) : GoFloat.gtb x y = false <-> (x <= y)%R.
Proof. apply ltb_false. Qed.

(** Case analysis on a float comparison, leaving the order fact in the
    context. *)
Ltac cmp_cases :=
  repeat match goal with
  | |- context [GoFloat.ltb ?x ?y] =>
      let E := fresh "E" in
      destruct (GoFloat.ltb x y) eqn:E;
      [apply ltb_spec in E | apply ltb_false in E]
  | |- context [GoFloat.gtb ?x ?y] =>
      let E := fresh "E" in
      destruct (GoFloat.gtb x y) eqn:E;
      [apply gtb_spec in E | apply gtb_false in E]
  end.

(** ** The embedding on the inputs of the repository's tests *)

(** [TestGameState_CalculatePaddleHeight]. *)
Example CalculatePaddleHeight_table :
  map game.CalculatePaddleHeight [1; 2; 3; 6; 10] = [5; 4; 3; 3; 3].
Proof. reflexivity. Qed.

(** [TestGameState_SpeedCap]. *)
Example GetSpeedCap_table :
  game.GetSpeedCap 1 = 1.5%R /\ game.GetSpeedCap 2 = 1.8%R /\
  game.GetSpeedCap 3 = 2.1%R /\ game.GetSpeedCap 5 = 2.7%R.
Proof.
  unfold game.GetSpeedCap, game.BaseSpeedCap, game.SpeedCapPerPlayer, GoFloat.of_int.
  change (GoInt.sub 1 1) with 0. change (GoInt.sub 2 1) with 1.
  change (GoInt.sub 3 1) with 2. change (GoInt.sub 5 1) with 4.
  repeat split; lra.
Qed.

(** [TestGameState_AddPlayer]: the ninth player wraps around to the
    first colour. *)
Example AddPlayer_color_wraps :
  paddle.Color (game.AddPlayer (game.NewGameState 80 24 10) 9 "P9").2 = 0.
Proof. reflexivity. Qed.

(** [TestGameState_AssignTeams]: four players in an 80 by 24 court, the
    shuffle leaving the pointers in the order 2, 0, 3, 1.  Teams and
    columns per paddle, in store order. *)
Example AssignTeams_four_players :
  map (fun p => (paddle.Team p, paddle.Column p, paddle.Height p, paddle.CourtHeight p))
    (game.Paddles (game.AssignTeams four_players four_shuffle 0 0))
  = [(0, 13, 4, 24); (1, 72, 4, 24); (0, 7, 4, 24); (1, 66, 4, 24)].
Proof. vm_compute. reflexivity. Qed.

(** The ball column of [checkPaddleCollisions] drops the fraction. *)
Example to_int_truncates :
  GoFloat.to_int 10.5 = 10 /\ GoFloat.to_int (-0.5) = 0.
Proof.
  unfold GoFloat.to_int. split.
  - destruct (Rle_dec 0 10.5) as [_|H]; [|lra].
    symmetry. apply Int_part_spec. simpl. lra.
  - destruct (Rle_dec 0 (-0.5)) as [H|_]; [lra|].
    replace (Int_part (- -0.5)) with 0; [reflexivity|].
    apply Int_part_spec. simpl. lra.
Qed.

(** ** Paddle height *)

Lemma CalculatePaddleHeight_small (n : Z) :
  1 <= n <= GoInt.max_int ->
  game.CalculatePaddleHeight n = Z.max game.MinPaddleHeight (6 - n).
Proof.
  intros Hn. unfold game.CalculatePaddleHeight, GoInt.sub, GoInt.mul,
    game.BasePaddleHeight, game.PaddleHeightPerPlayer, game.MinPaddleHeight.
  unfold GoInt.max_int in Hn.
  rewrite (wrap64_in_range (n - 1))
    by (unfold GoInt.in_range, GoInt.min_int, GoInt.max_int; lia).
  rewrite Z.mul_1_r.
  rewrite (wrap64_in_range (n - 1))
    by (unfold GoInt.in_range, GoInt.min_int, GoInt.max_int; lia).
  rewrite (wrap64_in_range (5 - (n - 1)))
    by (unfold GoInt.in_range, GoInt.min_int, GoInt.max_int; lia).
  destruct (Z.ltb_spec (5 - (n - 1)) 3); lia.
Qed.

(** C7.  [CalculatePaddleHeight] never returns less than
    [MinPaddleHeight], whatever its argument, and for every player count
    [n >= 1] whose successor is still an [int] the height for [n + 1]
    players is at most the height for [n] players. *)
Theorem CalculatePaddleHeight_nonincreasing_floor (n : Z) :
  game.MinPaddleHeight <= game.CalculatePaddleHeight n /\
  (1 <= n -> n < GoInt.max_int ->
   game.CalculatePaddleHeight (n + 1) <= game.CalculatePaddleHeight n).
Proof.
  split.
  - unfold game.CalculatePaddleHeight.
    match goal with |- context [?h <? ?m] => destruct (Z.ltb_spec h m) end; lia.
  - intros H1 Hmax.
    rewrite !CalculatePaddleHeight_small by lia. lia.
Qed.

Lemma CalculatePaddleHeight_nonincreasing_floor_witness :
  1 <= 2 /\ 2 < GoInt.max_int /\
  game.CalculatePaddleHeight (2 + 1) <= game.CalculatePaddleHeight 2.
Proof.
  split; [lia|]. split; [reflexivity|].
  apply (proj2 (CalculatePaddleHeight_nonincreasing_floor 2)); [lia | reflexivity].
Defined.

(** ** Scoring *)

(** C8.  With the ball left of the goal line ([X < 0]) in a court of
    non-negative width (80 in particular), [CheckScore] adds one to the
    right score, keeps the left score, records the right team as last
    scorer and starts the pause of [TickRate] ticks.  The right score is
    an [int] below the largest one, so that the increment does not
    wrap. *)
Theorem CheckScore_past_left_edge (gs : game.GameState) :
  0 <= game.Width gs ->
  (ball.X (game.Ball gs) < 0)%R ->
  GoInt.min_int <= game.RightScore gs < GoInt.max_int ->
  let gs' := game.CheckScore gs in
  game.RightScore gs' = game.RightScore gs + 1 /\
  game.LeftScore gs' = game.LeftScore gs /\
  game.LastScorer gs' = protocol.TeamRight /\
  game.Paused gs' = true /\
  game.PauseTicksLeft gs' = game.TickRate.
Proof.
  intros Hw Hx Hs. unfold game.CheckScore.
  apply ltb_spec in Hx as Hlt. rewrite Hlt. cbn [game.Ball game.startPause
    game.set_PauseTicksLeft game.set_Paused game.set_LastScorer
    game.set_RightScore game.Width].
  assert (Hgt : GoFloat.gtb (ball.X (game.Ball gs)) (GoFloat.of_int (game.Width gs)) = false).
  { apply gtb_false. unfold GoFloat.of_int.
    assert (0 <= IZR (game.Width gs))%R by (apply IZR_le; lia). lra. }
  unfold game.startPause. cbn. rewrite Hgt. cbn.
  unfold GoInt.add. rewrite wrap64_in_range.
  - repeat split; reflexivity.
  - unfold GoInt.in_range, GoInt.min_int, GoInt.max_int in *. lia.
Qed.

Lemma CheckScore_past_left_edge_witness :
  game.Width past_left_example = 80 /\
  game.RightScore (game.CheckScore past_left_example) = 1 /\
  game.LeftScore (game.CheckScore past_left_example) = 0 /\
  game.Paused (game.CheckScore past_left_example) = true.
Proof.
  split; [reflexivity|].
  assert (H := CheckScore_past_left_edge past_left_example).
  cbn zeta in H.
  destruct H as (Hr & Hl & _ & Hp & _).
  - cbn. lia.
  - cbn. lra.
  - cbn. unfold GoInt.min_int, GoInt.max_int. lia.
  - rewrite Hr, Hl, Hp. repeat split.
Defined.

(** ** Serving *)

(** C3.  [Serve] returns [true] only in [WaitingForServe] and only for
    a player whose paddle is on the serving team; in every other case it
    returns [false] and the state it leaves is the state it was given. *)
Theorem Serve_honored_only_when_due (gs : game.GameState) (playerID : Z) (rnd : R) :
  let due :=
    game.WaitingForServe gs = true /\
    exists pad, game.GetPaddle gs playerID = Some pad /\
                paddle.Team pad = game.ServingTeam gs in
  ((game.Serve gs playerID rnd).1 = true -> due) /\
  (~ due -> game.Serve gs playerID rnd = (false, gs)).
Proof.
  cbn zeta. unfold game.Serve.
  destruct (game.WaitingForServe gs) eqn:Hw; cbn [negb].
  - destruct (game.GetPaddle gs playerID) as [pad|] eqn:Hp.
    + destruct (Z.eqb_spec (paddle.Team pad) (game.ServingTeam gs)) as [Ht|Ht];
        cbn [negb].
      * split; [intros _; split; [reflexivity | exists pad; auto] |].
        intros Hn. exfalso. apply Hn. split; [reflexivity | exists pad; auto].
      * split; [discriminate | reflexivity].
    + split; [discriminate | reflexivity].
  - split; [discriminate | reflexivity].
Qed.

Lemma Serve_honored_only_when_due_witness :
  game.Serve fresh_example 1 0 = (false, fresh_example) /\
  (game.Serve serve_example 2 0).1 = false.
Proof.
  split.
  - apply (proj2 (Serve_honored_only_when_due fresh_example 1 0)).
    intros [Hw _]. discriminate Hw.
  - destruct ((game.Serve serve_example 2 0).1) eqn:E; [|reflexivity].
    apply (proj1 (Serve_honored_only_when_due serve_example 2 0)) in E.
    destruct E as [_ (pad & Hp & Ht)].
    vm_compute in Hp. injection Hp as <-. discriminate Ht.
Defined.

(** The server consults [Serve] only while a match exists. *)
Lemma handleMessage_Serve_no_match (s : server.Server) (c : server.Client) (rnd : R) :
  server.gameState s = None ->
  server.handleMessage s c server.MsgServe rnd = s.
Proof. intros H. unfold server.handleMessage. now rewrite H. Qed.

(** ** The ball *)

Lemma speed_of_polar (s a : R) :
  (0 <= s)%R ->
  sqrt (s * cos a * (s * cos a) + s * sin a * (s * sin a)) = s.
Proof.
  intros Hs.
  replace (s * cos a * (s * cos a) + s * sin a * (s * sin a))%R
    with (s * s * ((sin a)² + (cos a)²))%R by (unfold Rsqr; ring).
  rewrite sin2_cos2, Rmult_1_r. now apply sqrt_square.
Qed.

(** C4.  For a paddle of positive height, [BounceOffPaddle] leaves the
    speed of the ball as it was (over the reals the equality is
    exact). *)
Theorem BounceOffPaddle_preserves_speed (b : ball.Ball) (paddleY : R) (paddleHeight : Z) :
  0 < paddleHeight ->
  ball.Speed (ball.BounceOffPaddle b paddleY paddleHeight) = ball.Speed b.
Proof.
  intros _. unfold ball.Speed, ball.BounceOffPaddle.
  set (s := sqrt (ball.VX b * ball.VX b + ball.VY b * ball.VY b)).
  set (a := (ball.relativeHit b paddleY paddleHeight * ball.MaxBounceAngle)%R).
  assert (Hs : (0 <= s)%R) by apply sqrt_pos.
  destruct (GoFloat.gtb (ball.VX b) 0); cbn [ball.VX ball.VY].
  - replace (- s * cos a * (- s * cos a))%R with (s * cos a * (s * cos a))%R by ring.
    now apply speed_of_polar.
  - now apply speed_of_polar.
Qed.

Lemma BounceOffPaddle_preserves_speed_witness :
  ball.Speed (ball.BounceOffPaddle (ball.mkBall 10 12 (-3) 4) 11 5) = 5%R.
Proof.
  rewrite (BounceOffPaddle_preserves_speed (ball.mkBall 10 12 (-3) 4) 11 5) by lia.
  unfold ball.Speed. cbn.
  replace (-3 * -3 + 4 * 4)%R with (5 * 5)%R by lra.
  apply sqrt_square. lra.
Defined.


Lemma launch_angle_cos_pos (rnd : R) :
  (0 <= rnd < 1)%R -> (0 < cos ((rnd - 0.5) * PI / 3))%R.
Proof.
  intros Hr. pose proof PI_RGT_0 as Hpi.
  apply cos_gt_0; nra.
Qed.




(** ** Paddles stay inside the court *)

Section PaddleBounds.

Local Open Scope R_scope.

(** Stepping up and clamping at the top keeps [y] in range. *)
Lemma step_up_in_court (h ch : Z) (y d : R) :
  0 <= d -> in_court h ch y ->
  in_court h ch
    (if GoFloat.ltb (y - d) (GoFloat.of_int h / 2) then GoFloat.of_int h / 2 else y - d).
Proof. unfold in_court. intros Hd Hy. cmp_cases; lra. Qed.

(** Stepping down and clamping at the bottom keeps [y] in range. *)
Lemma step_down_in_court (h ch : Z) (y d : R) :
  0 <= d -> in_court h ch y ->
  in_court h ch
    (if GoFloat.gtb (y + d) (GoFloat.of_int ch - GoFloat.of_int h / 2)
     then GoFloat.of_int ch - GoFloat.of_int h / 2 else y + d).
Proof. unfold in_court. intros Hd Hy. cmp_cases; lra. Qed.

(** Clamping below and then above lands in range whenever the range is
    not empty. *)
Lemma clamp_in_court (h ch : Z) (y : R) :
  (h <= ch)%Z ->
  let lo := GoFloat.of_int h / 2 in
  let hi := GoFloat.of_int ch - lo in
  let y1 := if GoFloat.ltb y lo then lo else y in
  in_court h ch (if GoFloat.gtb y1 hi then hi else y1).
Proof.
  intros Hh. cbn zeta. unfold in_court, GoFloat.of_int.
  apply IZR_le in Hh. cmp_cases; lra.
Qed.

Lemma smooth_Update_in_court (p : paddle.Paddle) :
  (paddle.Height p <= paddle.CourtHeight p)%Z ->
  in_court (paddle.Height p) (paddle.CourtHeight p) (paddle.Y (paddle.Update p)).
Proof. intros Hh. unfold paddle.Update. cbn. now apply clamp_in_court. Qed.

Lemma smooth_ProcessInput_Y (p : paddle.Paddle) (dir : protocol.Direction) :
  paddle.Y (paddle.ProcessInput p dir) = paddle.Y p /\
  paddle.Height (paddle.ProcessInput p dir) = paddle.Height p /\
  paddle.CourtHeight (paddle.ProcessInput p dir) = paddle.CourtHeight p /\
  paddle.Team (paddle.ProcessInput p dir) = paddle.Team p.
Proof.
  unfold paddle.ProcessInput. cbn zeta.
  destruct (dir =? protocol.DirUp)%Z; [easy|].
  destruct (dir =? protocol.DirDown)%Z; easy.
Qed.

(** C9.  A paddle of height [0 < Height <= CourtHeight] whose centre
    lies in [[Height/2, CourtHeight - Height/2]] keeps it there under
    every movement operation of every variant of the paddle: [Update]
    and [ProcessInput] of the smoothed paddle, [MoveUp], [MoveDown] and
    [ProcessInput] of the stepping paddle, and [Move] of the two
    direction-holding paddles. *)
Theorem paddle_moves_stay_in_court :
  (forall (p : paddle.Paddle) (dir : protocol.Direction),
     (0 < paddle.Height p <= paddle.CourtHeight p)%Z ->
     in_court (paddle.Height p) (paddle.CourtHeight p) (paddle.Y p) ->
     in_court (paddle.Height p) (paddle.CourtHeight p) (paddle.Y (paddle.Update p)) /\
     in_court (paddle.Height p) (paddle.CourtHeight p)
       (paddle.Y (paddle.ProcessInput p dir))) /\
  (forall (p : paddle_step.Paddle) (dir : protocol.Direction),
     (0 < paddle_step.Height p <= paddle_step.CourtHeight p)%Z ->
     in_court (paddle_step.Height p) (paddle_step.CourtHeight p) (paddle_step.Y p) ->
     in_court (paddle_step.Height p) (paddle_step.CourtHeight p)
       (paddle_step.Y (paddle_step.MoveUp p)) /\
     in_court (paddle_step.Height p) (paddle_step.CourtHeight p)
       (paddle_step.Y (paddle_step.MoveDown p)) /\
     in_court (paddle_step.Height p) (paddle_step.CourtHeight p)
       (paddle_step.Y (paddle_step.ProcessInput p dir))) /\
  (forall p : paddle_timeout.Paddle,
     (0 < paddle_timeout.Height p <= paddle_timeout.CourtHeight p)%Z ->
     in_court (paddle_timeout.Height p) (paddle_timeout.CourtHeight p)
       (paddle_timeout.Y p) ->
     in_court (paddle_timeout.Height p) (paddle_timeout.CourtHeight p)
       (paddle_timeout.Y (paddle_timeout.Move p))) /\
  (forall p : paddle_oneshot.Paddle,
     (0 < paddle_oneshot.Height p <= paddle_oneshot.CourtHeight p)%Z ->
     in_court (paddle_oneshot.Height p) (paddle_oneshot.CourtHeight p)
       (paddle_oneshot.Y p) ->
     in_court (paddle_oneshot.Height p) (paddle_oneshot.CourtHeight p)
       (paddle_oneshot.Y (paddle_oneshot.Move p))).
Proof.
  repeat apply conj.
  - intros p dir Hh Hy. split.
    + apply smooth_Update_in_court. lia.
    + now rewrite (proj1 (smooth_ProcessInput_Y p dir)).
  - intros p dir Hh Hy.
    assert (Hup : in_court (paddle_step.Height p) (paddle_step.CourtHeight p)
                    (paddle_step.Y (paddle_step.MoveUp p))).
    { unfold paddle_step.MoveUp. cbn.
      apply step_up_in_court; [unfold paddle_step.PaddleMoveAmount; lra | easy]. }
    assert (Hdown : in_court (paddle_step.Height p) (paddle_step.CourtHeight p)
                      (paddle_step.Y (paddle_step.MoveDown p))).
    { unfold paddle_step.MoveDown. cbn.
      apply step_down_in_court; [unfold paddle_step.PaddleMoveAmount; lra | easy]. }
    repeat split; try apply Hup; try apply Hdown;
      unfold paddle_step.ProcessInput;
      destruct (dir =? protocol.DirUp)%Z; try apply Hup;
      destruct (dir =? protocol.DirDown)%Z; try apply Hdown; apply Hy.
  - intros p Hh Hy.
    assert (Hy' : in_court (paddle_timeout.Height p) (paddle_timeout.CourtHeight p)
              (if (paddle_timeout.Direction p =? protocol.DirUp)%Z
               then
                 if GoFloat.ltb (paddle_timeout.Y p - paddle_timeout.PaddleSpeed)
                      (GoFloat.of_int (paddle_timeout.Height p) / 2)
                 then GoFloat.of_int (paddle_timeout.Height p) / 2
                 else paddle_timeout.Y p - paddle_timeout.PaddleSpeed
               else if (paddle_timeout.Direction p =? protocol.DirDown)%Z
               then
                 if GoFloat.gtb (paddle_timeout.Y p + paddle_timeout.PaddleSpeed)
                      (GoFloat.of_int (paddle_timeout.CourtHeight p)
                       - GoFloat.of_int (paddle_timeout.Height p) / 2)
                 then GoFloat.of_int (paddle_timeout.CourtHeight p)
                      - GoFloat.of_int (paddle_timeout.Height p) / 2
                 else paddle_timeout.Y p + paddle_timeout.PaddleSpeed
               else paddle_timeout.Y p)).
    { destruct (paddle_timeout.Direction p =? protocol.DirUp)%Z.
      - apply step_up_in_court; [unfold paddle_timeout.PaddleSpeed; lra | easy].
      - destruct (paddle_timeout.Direction p =? protocol.DirDown)%Z; [|easy].
        apply step_down_in_court; [unfold paddle_timeout.PaddleSpeed; lra | easy]. }
    unfold paddle_timeout.Move. cbn zeta.
    destruct (paddle_timeout.MovementTicks p >? 0)%Z; cbn [paddle_timeout.Y]; exact Hy'.
  - intros p Hh Hy. unfold paddle_oneshot.Move. cbn.
    destruct (paddle_oneshot.Direction p =? protocol.DirUp)%Z.
    + apply step_up_in_court; [unfold paddle_oneshot.PaddleSpeed; lra | easy].
    + destruct (paddle_oneshot.Direction p =? protocol.DirDown)%Z; [|easy].
      apply step_down_in_court; [unfold paddle_oneshot.PaddleSpeed; lra | easy].
Qed.

Lemma paddle_moves_stay_in_court_witness :
  in_court 5 24 (paddle.Y (paddle.Update smooth_example)) /\
  in_court 5 24 (paddle_step.Y (paddle_step.MoveUp step_example)) /\
  in_court 5 24 (paddle_timeout.Y (paddle_timeout.Move timeout_example)) /\
  in_court 5 24 (paddle_oneshot.Y (paddle_oneshot.Move oneshot_example)).
Proof.
  destruct paddle_moves_stay_in_court as (Hs & Ht & Hm & Ho).
  split; [|split; [|split]].
  - refine (proj1 (Hs smooth_example protocol.DirUp _ _)); cbn; [lia|].
    unfold in_court, GoFloat.of_int; cbn; lra.
  - refine (proj1 (Ht step_example protocol.DirUp _ _)); cbn; [lia|].
    unfold in_court, GoFloat.of_int; cbn; lra.
  - apply (Hm timeout_example); cbn; [lia|].
    unfold in_court, GoFloat.of_int; cbn; lra.
  - apply (Ho oneshot_example); cbn; [lia|].
    unfold in_court, GoFloat.of_int; cbn; lra.
Defined.

End PaddleBounds.

(** ** Team assignment *)

Section Teams.

Lemma countTeam_countOf (ps : list paddle.Paddle) (t : protocol.Team) :
  game.countTeam ps t = countOf (paddle.Team <$> ps) t.
Proof. induction ps as [|p ps IH]; cbn; [reflexivity | now rewrite IH]. Qed.

Lemma countOf_app (l1 l2 : list protocol.Team) (t : protocol.Team) :
  countOf (l1 ++ l2) t = countOf l1 t + countOf l2 t.
Proof. induction l1 as [|x l1 IH]; cbn; [reflexivity | rewrite IH; lia]. Qed.

Lemma countOf_Permutation (l1 l2 : list protocol.Team) (t : protocol.Team) :
  l1 ≡ₚ l2 -> countOf l1 t = countOf l2 t.
Proof. induction 1; cbn; lia. Qed.


Lemma countOf_const (f : nat -> protocol.Team) (l : list nat) (t u : protocol.Team) :
  (forall j, j ∈ l -> f j = u) ->
  countOf (f <$> l) t = if u =? t then Z.of_nat (length l) else 0.
Proof.
  intros Hf. induction l as [|j l IH]; cbn [fmap list_fmap countOf length].
  - now destruct (u =? t).
  - rewrite IH by (intros; apply Hf; now right).
    rewrite (Hf j) by now left.
    destruct (u =? t); lia.
Qed.

Lemma tagAll_lookup (t : protocol.Team) (ptrs : list nat) (ts : list protocol.Team)
    (j : nat) :
  tagAll t ts ptrs !! j =
  if decide (j ∈ ptrs) then (fun _ => t) <$> ts !! j else ts !! j.
Proof.
  unfold tagAll. revert ts.
  induction ptrs as [|p ptrs IH]; intros ts; cbn [foldl].
  - destruct (decide (j ∈ [])) as [H|H]; [inversion H | reflexivity].
  - rewrite IH, list_lookup_alter.
    destruct (decide (j ∈ ptrs)) as [Hin|Hin], (decide (p = j)) as [->|Hne],
      (decide (j ∈ _ :: ptrs)) as [Hc|Hc];
      try reflexivity.
    + now destruct (ts !! j).
    + exfalso. apply Hc. now right.
    + exfalso. apply Hc. now right.
    + exfalso. apply Hc. now left.
    + apply elem_of_cons in Hc as [->|?]; easy.
Qed.

Lemma assignTeamPaddles_loop_teams (gsHeight : Z) (team : protocol.Team)
    (height columnStart columnSpacing i : Z) (ptrs : list nat)
    (store : list paddle.Paddle) :
  paddle.Team <$>
    game.assignTeamPaddles_loop gsHeight team height columnStart columnSpacing i
      ptrs store
  = tagAll team (paddle.Team <$> store) ptrs.
Proof.
  unfold tagAll. revert i store.
  induction ptrs as [|p ptrs IH]; intros i store; cbn [game.assignTeamPaddles_loop foldl].
  - reflexivity.
  - rewrite IH. f_equal.
    apply list_fmap_alter. apply Forall_forall. intros; reflexivity.
Qed.

Lemma assignTeamPaddles_teams (gs : game.GameState) (ptrs : list nat)
    (team : protocol.Team) (height : Z) :
  paddle.Team <$> game.Paddles (game.assignTeamPaddles gs ptrs team height)
  = tagAll team (paddle.Team <$> game.Paddles gs) ptrs.
Proof.
  unfold game.assignTeamPaddles.
  destruct (GoInt.len ptrs =? 0) eqn:E.
  - apply Z.eqb_eq in E. unfold GoInt.len in E.
    destruct ptrs; [reflexivity | cbn in E; lia].
  - cbn [game.Paddles game.set_Paddles]. apply assignTeamPaddles_loop_teams.
Qed.

(** After tagging the first [k] pointers of an enumeration of the store
    with [l] and the others with [r], the tags are [l] on the first
    group and [r] on the second. *)
Lemma tagAll_split (l r : protocol.Team) (ts : list protocol.Team)
    (shuffled : list nat) (k : nat) :
  shuffled ≡ₚ seq 0 (length ts) ->
  tagAll r (tagAll l ts (take k shuffled)) (drop k shuffled)
  = (fun j => if decide (j ∈ drop k shuffled) then r else l) <$> seq 0 (length ts).
Proof.
  intros Hperm. apply list_eq. intros j.
  rewrite !tagAll_lookup, list_lookup_fmap.
  destruct (decide (j < length ts)%nat) as [Hlt|Hge].
  - rewrite lookup_seq_lt by exact Hlt. cbn.
    destruct (lookup_lt_is_Some_2 ts j Hlt) as [x Hx]. rewrite Hx.
    assert (Hin : j ∈ shuffled).
    { rewrite Hperm. apply elem_of_seq. lia. }
    rewrite <- (take_drop k shuffled) in Hin. apply elem_of_app in Hin.
    destruct (decide (j ∈ drop k shuffled)), (decide (j ∈ take k shuffled));
      cbn; try reflexivity.
    tauto.
  - rewrite (lookup_ge_None_2 ts j) by lia.
    rewrite (lookup_ge_None_2 (seq 0 (length ts)) j) by (rewrite length_seq; lia).
    now destruct (decide (j ∈ drop k shuffled)), (decide (j ∈ take k shuffled)).
Qed.

Lemma countOf_split (l r t : protocol.Team) (n : nat) (shuffled : list nat) (k : nat) :
  l <> r ->
  shuffled ≡ₚ seq 0 n ->
  (k <= n)%nat ->
  countOf ((fun j => if decide (j ∈ drop k shuffled) then r else l) <$> seq 0 n) t
  = (if l =? t then Z.of_nat k else 0) + (if r =? t then Z.of_nat (n - k) else 0).
Proof.
  intros Hlr Hperm Hk.
  assert (Hlen : length shuffled = n) by (rewrite Hperm; apply length_seq).
  assert (Hnd : NoDup (take k shuffled ++ drop k shuffled)).
  { rewrite take_drop, Hperm. apply NoDup_seq. }
  apply NoDup_app in Hnd as (_ & Hdisj & _).
  set (f := fun j : nat => if decide (j ∈ drop k shuffled) then r else l).
  assert (Hfl : forall j, j ∈ take k shuffled -> f j = l).
  { intros j Hj. unfold f.
    destruct (decide (j ∈ drop k shuffled)) as [Hd|]; [|reflexivity].
    exfalso. now apply (Hdisj j). }
  assert (Hfr : forall j, j ∈ drop k shuffled -> f j = r).
  { intros j Hj. unfold f. now destruct (decide (j ∈ drop k shuffled)). }
  clearbody f.
  rewrite (countOf_Permutation _ (f <$> shuffled)) by now rewrite Hperm.
  rewrite <- (take_drop k shuffled), fmap_app, countOf_app.
  rewrite (countOf_const f (take k shuffled) t l Hfl).
  rewrite (countOf_const f (drop k shuffled) t r Hfr).
  rewrite length_take, length_drop, Hlen.
  replace (k `min` n)%nat with k by lia. reflexivity.
Qed.

Lemma AssignTeams_teams (gs : game.GameState) (shuffled : list nat) (coin : Z)
    (rnd : R) :
  shuffled ≡ₚ seq 0 (length (game.Paddles gs)) ->
  game.Paddles gs <> [] ->
  paddle.Team <$> game.Paddles (game.AssignTeams gs shuffled coin rnd)
  = (fun j =>
       if decide (j ∈ drop (Z.to_nat (Z.quot (GoInt.len shuffled) 2)) shuffled)
       then protocol.TeamRight else protocol.TeamLeft)
    <$> seq 0 (length (game.Paddles gs)).
Proof.
  intros Hperm Hne. unfold game.AssignTeams.
  destruct (GoInt.len (game.Paddles gs) =? 0) eqn:E.
  { apply Z.eqb_eq in E. unfold GoInt.len in E.
    destruct (game.Paddles gs); [easy | cbn in E; lia]. }
  cbn zeta. cbn [game.Paddles game.set_Ball].
  rewrite !assignTeamPaddles_teams.
  rewrite <- (length_fmap paddle.Team (game.Paddles gs)).
  apply tagAll_split. now rewrite length_fmap.
Qed.

(** C6.  Whatever the outcome of the shuffle, [AssignTeams] leaves every
    paddle on the left or on the right team, the left team has
    [N / 2] players and the right team the other [N - N / 2]: the sizes
    differ by at most one.  [N >= 2] is not needed. *)
Theorem AssignTeams_balanced (gs : game.GameState) (shuffled : list nat) (coin : Z)
    (rnd : R) :
  shuffled ≡ₚ seq 0 (length (game.Paddles gs)) ->
  let N := GoInt.len (game.Paddles gs) in
  let gs' := game.AssignTeams gs shuffled coin rnd in
  let leftCount := game.countPlayersOnSide gs' protocol.TeamLeft in
  let rightCount := game.countPlayersOnSide gs' protocol.TeamRight in
  GoInt.len (game.Paddles gs') = N /\
  Forall (fun p => paddle.Team p = protocol.TeamLeft \/ paddle.Team p = protocol.TeamRight)
    (game.Paddles gs') /\
  leftCount = Z.quot N 2 /\
  rightCount = N - Z.quot N 2 /\
  Z.abs (leftCount - rightCount) <= 1.
Proof.
  intros Hperm. cbn zeta.
  destruct (game.Paddles gs) as [|p0 ps] eqn:Hps.
  { assert (E : game.AssignTeams gs shuffled coin rnd = gs)
      by (unfold game.AssignTeams; now rewrite Hps).
    rewrite E. unfold game.countPlayersOnSide. rewrite Hps. cbn.
    repeat split; try reflexivity; [constructor | lia]. }
  assert (Hne : game.Paddles gs <> []) by now rewrite Hps.
  rewrite <- Hps in *. clear Hps p0 ps.
  pose proof (AssignTeams_teams gs shuffled coin rnd Hperm Hne) as Ht.
  set (gs' := game.AssignTeams gs shuffled coin rnd) in *.
  set (n := length (game.Paddles gs)) in *.
  assert (Hlen : length shuffled = n) by (rewrite Hperm; apply length_seq).
  assert (HN : GoInt.len shuffled = Z.of_nat n) by (unfold GoInt.len; now rewrite Hlen).
  assert (Hk : (Z.to_nat (Z.quot (Z.of_nat n) 2) <= n)%nat).
  { rewrite Z.quot_div_nonneg by lia. apply Nat2Z.inj_le.
    rewrite Z2Nat.id by (apply Z.div_pos; lia).
    apply Z.div_le_upper_bound; lia. }
  rewrite HN in Ht.
  assert (Hl : game.countPlayersOnSide gs' protocol.TeamLeft = Z.quot (Z.of_nat n) 2).
  { unfold game.countPlayersOnSide. rewrite countTeam_countOf, Ht.
    rewrite (countOf_split _ _ _ n shuffled) by (easy || exact Hk).
    cbn. rewrite Z2Nat.id; [lia|]. rewrite Z.quot_div_nonneg by lia.
    apply Z.div_pos; lia. }
  assert (Hr : game.countPlayersOnSide gs' protocol.TeamRight
               = Z.of_nat n - Z.quot (Z.of_nat n) 2).
  { unfold game.countPlayersOnSide. rewrite countTeam_countOf, Ht.
    rewrite (countOf_split _ _ _ n shuffled) by (easy || exact Hk).
    cbn. rewrite Nat2Z.inj_sub by exact Hk. rewrite Z2Nat.id; [lia|].
    rewrite Z.quot_div_nonneg by lia. apply Z.div_pos; lia. }
  split; [|split; [|split; [|split]]].
  - unfold GoInt.len. fold n.
    rewrite <- (length_fmap paddle.Team (game.Paddles gs')), Ht, length_fmap, length_seq.
    reflexivity.
  - apply Forall_forall. intros p Hp.
    assert (Hin : paddle.Team p ∈ paddle.Team <$> game.Paddles gs').
    { apply list_elem_of_fmap. exists p. split; [reflexivity | exact Hp]. }
    rewrite Ht in Hin. apply list_elem_of_fmap in Hin as (j & -> & _).
    destruct (decide _); auto.
  - exact Hl.
  - exact Hr.
  - rewrite Hl, Hr. unfold GoInt.len. fold n.
    rewrite Z.quot_div_nonneg by lia.
    pose proof (Z.div_mod (Z.of_nat n) 2 ltac:(lia)).
    pose proof (Z.mod_pos_bound (Z.of_nat n) 2 ltac:(lia)). lia.
Qed.

Lemma AssignTeams_balanced_witness :
  four_shuffle ≡ₚ seq 0 (length (game.Paddles four_players)) /\
  game.countPlayersOnSide (game.AssignTeams four_players four_shuffle 0 0)
    protocol.TeamLeft = 2 /\
  game.countPlayersOnSide (game.AssignTeams four_players four_shuffle 0 0)
    protocol.TeamRight = 2.
Proof.
  assert (Hperm : four_shuffle ≡ₚ seq 0 (length (game.Paddles four_players))).
  { apply (bool_decide_unpack _). vm_compute. exact I. }
  split; [exact Hperm|].
  destruct (AssignTeams_balanced four_players four_shuffle 0 0 Hperm)
    as (_ & _ & Hl & Hr & _).
  split; [exact Hl | exact Hr].
Defined.

End Teams.

(** ** The speed cap *)

Section SpeedCap.

Local Open Scope R_scope.







Lemma scaled_speed (vx vy s : R) :
  0 <= s ->
  sqrt (vx * s * (vx * s) + vy * s * (vy * s)) = s * sqrt (vx * vx + vy * vy).
Proof.
  intros Hs.
  replace (vx * s * (vx * s) + vy * s * (vy * s)) with (s * s * (vx * vx + vy * vy))
    by ring.
  rewrite sqrt_mult; [| nra | nra].
  now rewrite sqrt_square.
Qed.


Lemma hitPaddle_teams (gs : game.GameState) (p : paddle.Paddle) :
  teams (game.hitPaddle gs p) = teams gs.
Proof. reflexivity. Qed.

(** The collision loop either leaves the state alone or hits one of the
    paddles it visits. *)
Lemma checkPaddleCollisions_loop_cases (gs : game.GameState) (ps : list paddle.Paddle) :
  game.checkPaddleCollisions_loop gs ps = gs \/
  exists p, p ∈ ps /\ game.checkPaddleCollisions_loop gs ps = game.hitPaddle gs p.
Proof.
  induction ps as [|p ps IH]; cbn [game.checkPaddleCollisions_loop]; [now left|].
  assert (Hrest :
    game.checkPaddleCollisions_loop gs ps = gs \/
    exists q, q ∈ p :: ps /\ game.checkPaddleCollisions_loop gs ps = game.hitPaddle gs q).
  { destruct IH as [IH|(q & Hq & IH)]; [now left|].
    right. exists q. split; [now right | exact IH]. }
  cbn zeta.
  repeat match goal with
  | |- context [if ?c then _ else _] => destruct c; [exact Hrest|]
  end.
  right. exists p. split; [now left | reflexivity].
Qed.

















End SpeedCap.

(** ** Paddles of a match stay inside the court *)

Section MatchPaddles.

Lemma checkPaddleCollisions_Paddles (gs : game.GameState) :
  game.Paddles (game.checkPaddleCollisions gs) = game.Paddles gs.
Proof.
  unfold game.checkPaddleCollisions.
  destruct (checkPaddleCollisions_loop_cases gs (game.Paddles gs))
    as [-> | (p & _ & ->)]; reflexivity.
Qed.

Lemma CheckScore_Paddles (gs : game.GameState) :
  game.Paddles (game.CheckScore gs) = game.Paddles gs.
Proof.
  unfold game.CheckScore; cbn zeta;
    repeat match goal with
    | |- context [if ?c then _ else _] => destruct c
    end; reflexivity.
Qed.

Lemma wallBounce_Paddles (gs : game.GameState) :
  game.Paddles (game.wallBounce gs) = game.Paddles gs.
Proof. unfold game.wallBounce. cbn zeta. now destruct (_ || _). Qed.

(** A tick either leaves the paddles alone or applies [Paddle.Update]
    to each of them. *)
Lemma Update_Paddles (gs : game.GameState) :
  game.Paddles (game.Update gs) = game.Paddles gs \/
  game.Paddles (game.Update gs) = map paddle.Update (game.Paddles gs).
Proof.
  unfold game.Update. cbn zeta.
  cbn [game.Paused game.set_Tick game.PauseTicksLeft game.set_PauseTicksLeft].
  destruct (game.Paused gs).
  - left. now destruct (_ <=? 0).
  - right. cbn [game.WaitingForServe game.set_Paddles game.set_Tick].
    destruct (game.WaitingForServe gs); [reflexivity|].
    now rewrite CheckScore_Paddles, checkPaddleCollisions_Paddles, wallBounce_Paddles.
Qed.

(** [GameState.Update] and [GameState.ProcessInput] keep every paddle
    of the match inside the court. *)
Lemma match_paddles_stay_in_court (gs : game.GameState) (playerID : Z)
    (dir : protocol.Direction) :
  Forall fits (game.Paddles gs) ->
  Forall fits (game.Paddles (game.Update gs)) /\
  Forall fits (game.Paddles (game.ProcessInput gs playerID dir)).
Proof.
  intros Hall. split.
  - destruct (Update_Paddles gs) as [-> | ->]; [exact Hall|].
    change (map paddle.Update (game.Paddles gs))
      with (paddle.Update <$> game.Paddles gs).
    apply Forall_fmap. eapply Forall_impl; [exact Hall|].
    intros p [Hh Hy]. split; [exact Hh|].
    apply (smooth_Update_in_court p). lia.
  - unfold game.ProcessInput.
    destruct (game.GetPaddleRef gs playerID) as [i|]; [|exact Hall].
    cbn [game.Paddles game.set_Paddles].
    apply Forall_alter; [exact Hall|].
    intros p _ [Hh Hy]. unfold fits.
    destruct (smooth_ProcessInput_Y p dir) as (-> & -> & -> & _). easy.
Qed.

End MatchPaddles.

(** ** Match start on the server *)

Section CourtSize.

Lemma withPlayers_Width_Height (gs : game.GameState) (cs : list (Z * server.Client)) :
  let gs' :=
    foldl (fun gs (kc : Z * server.Client) =>
             (game.AddPlayer gs (server.ID kc.2) (server.Name kc.2)).1) gs cs in
  game.Width gs' = game.Width gs /\ game.Height gs' = game.Height gs.
Proof.
  cbn zeta. revert gs. induction cs as [|kc cs IH]; intros gs; [easy|].
  cbn [foldl]. destruct (IH (game.AddPlayer gs (server.ID kc.2) (server.Name kc.2)).1)
    as [-> ->]. easy.
Qed.

Lemma assignTeamPaddles_Width_Height (gs : game.GameState) (ptrs : list nat)
    (team : protocol.Team) (height : Z) :
  game.Width (game.assignTeamPaddles gs ptrs team height) = game.Width gs /\
  game.Height (game.assignTeamPaddles gs ptrs team height) = game.Height gs.
Proof. unfold game.assignTeamPaddles. now destruct (_ =? 0). Qed.

Lemma AssignTeams_Width_Height (gs : game.GameState) (shuffled : list nat)
    (coin : Z) (rnd : R) :
  game.Width (game.AssignTeams gs shuffled coin rnd) = game.Width gs /\
  game.Height (game.AssignTeams gs shuffled coin rnd) = game.Height gs.
Proof.
  unfold game.AssignTeams. destruct (_ =? 0); [easy|]. cbn zeta.
  cbn [game.Width game.Height game.set_Ball].
  destruct (assignTeamPaddles_Width_Height
              (game.assignTeamPaddles gs
                 (take (Z.to_nat (Z.quot (GoInt.len shuffled) 2)) shuffled)
                 protocol.TeamLeft
                 (game.CalculatePaddleHeight
                    (GoInt.len (take (Z.to_nat (Z.quot (GoInt.len shuffled) 2)) shuffled))))
              (drop (Z.to_nat (Z.quot (GoInt.len shuffled) 2)) shuffled)
              protocol.TeamRight
              (game.CalculatePaddleHeight
                 (GoInt.len (drop (Z.to_nat (Z.quot (GoInt.len shuffled) 2)) shuffled))))
    as [-> ->].
  apply assignTeamPaddles_Width_Height.
Qed.

(** Seeded with the admission minimum, the minimum loop returns its
    seed on every roster of admitted clients. *)
Lemma minTermSize_admitted (cs : list (Z * server.Client)) :
  Forall (fun kc : Z * server.Client =>
            server.MinTermWidth <= server.Width kc.2 /\
            server.MinTermHeight <= server.Height kc.2) cs ->
  server.minTermSize server.MinTermWidth server.MinTermHeight cs
  = (server.MinTermWidth, server.MinTermHeight).
Proof.
  unfold server.minTermSize. induction 1 as [|kc cs [Hw Hh] _ IH]; [reflexivity|].
  cbn [foldl fst snd].
  destruct (Z.ltb_spec (server.Width kc.2) server.MinTermWidth); [lia|].
  destruct (Z.ltb_spec (server.Height kc.2) server.MinTermHeight); [lia|].
  exact IH.
Qed.

Lemma range_clients_lookup (m : gmap Z server.Client) (order : list Z)
    (kc : Z * server.Client) :
  kc ∈ server.range_clients m order -> m !! kc.1 = Some kc.2.
Proof.
  unfold server.range_clients. intros H.
  apply list_elem_of_omap in H as (k & _ & Hk).
  destruct (m !! k) eqn:E; [|discriminate]. injection Hk as <-. exact E.
Qed.

(** Every roster whose clients passed the admission check starts its
    match on a court of exactly the admission minimum, 40 by 20,
    whatever sizes the clients advertised. *)
Lemma StartGame_court_is_admission_minimum (s : server.Server) (order1 order2 : list Z)
    (shuffled : list nat) (coin : Z) (rnd : R) :
  (forall k c, server.clients s !! k = Some c ->
     server.MinTermWidth <= server.Width c /\ server.MinTermHeight <= server.Height c) ->
  2 <= Z.of_nat (size (server.clients s)) ->
  exists gs,
    server.gameState (server.StartGame s order1 order2 shuffled coin rnd) = Some gs /\
    game.Width gs = server.MinTermWidth /\ game.Height gs = server.MinTermHeight.
Proof.
  intros Hadm Hsize. unfold server.StartGame.
  destruct (Z.ltb_spec (Z.of_nat (size (server.clients s))) 2); [lia|].
  rewrite minTermSize_admitted.
  2:{ apply Forall_forall. intros kc Hkc. apply (Hadm kc.1).
      eapply range_clients_lookup, Hkc. }
  cbn [server.gameState]. eexists. split; [reflexivity|].
  destruct (AssignTeams_Width_Height
              (foldl (fun gs (kc : Z * server.Client) =>
                        (game.AddPlayer gs (server.ID kc.2) (server.Name kc.2)).1)
                 (game.NewGameState server.MinTermWidth server.MinTermHeight
                    (server.cfg_PointsToWin s))
                 (server.range_clients (server.clients s) order2))
              shuffled coin rnd) as [-> ->].
  apply (withPlayers_Width_Height
           (game.NewGameState server.MinTermWidth server.MinTermHeight
              (server.cfg_PointsToWin s))).
Qed.

Lemma lobby_80x24_clients :
  server.clients lobby_80x24 !! 1 = Some (server.mkClient 1 "ann" 80 24 1) /\
  server.clients lobby_80x24 !! 2 = Some (server.mkClient 2 "bob" 80 24 2) /\
  size (server.clients lobby_80x24) = 2%nat.
Proof. vm_compute. auto. Qed.

(** C1 fails on the code.  Two clients join, each advertising an 80 by
    24 terminal, so the component-wise minimum of the advertised sizes is
    80 by 24; for every iteration order and every random draw
    [StartGame] creates a court of 40 by 20, the admission minimum the
    loop is seeded with. *)
Theorem StartGame_court_80x24_is_40x20 (order1 order2 : list Z) (shuffled : list nat)
    (coin : Z) (rnd : R) :
  server.clients lobby_80x24 !! 1 = Some (server.mkClient 1 "ann" 80 24 1) /\
  server.clients lobby_80x24 !! 2 = Some (server.mkClient 2 "bob" 80 24 2) /\
  size (server.clients lobby_80x24) = 2%nat /\
  exists gs,
    server.gameState (server.StartGame lobby_80x24 order1 order2 shuffled coin rnd)
    = Some gs /\
    game.Width gs = 40 /\ game.Height gs = 20.
Proof.
  destruct lobby_80x24_clients as (H1 & H2 & Hsz).
  split; [exact H1|]. split; [exact H2|]. split; [exact Hsz|].
  apply StartGame_court_is_admission_minimum.
  - intros k c Hk.
    assert (Hc : c = server.mkClient 1 "ann" 80 24 1 \/
                 c = server.mkClient 2 "bob" 80 24 2).
    { destruct (decide (k = 1)) as [->|].
      { rewrite H1 in Hk. injection Hk as <-. now left. }
      destruct (decide (k = 2)) as [->|].
      { rewrite H2 in Hk. injection Hk as <-. now right. }
      exfalso. revert Hk. unfold lobby_80x24, server.handleConnection. cbn.
      change (GoInt.add 1 1) with 2. rewrite !lookup_insert_ne by lia.
      now rewrite lookup_empty. }
    destruct Hc as [-> | ->]; cbn; unfold server.MinTermWidth, server.MinTermHeight; lia.
  - rewrite Hsz. lia.
Qed.

End CourtSize.

(** ** The lobby broadcast *)

Section Lobby.

Lemma range_order_elem (m : gmap Z server.Client) (order : list Z) (k : Z)
    (c : server.Client) :
  server.range_order m order -> m !! k = Some c -> k ∈ order.
Proof.
  unfold server.range_order. intros -> Hk.
  apply list_elem_of_fmap. exists (k, c). split; [reflexivity|].
  now apply elem_of_map_to_list.
Qed.

(** The send loop reaches every client of the roster, with the payload
    built for it. *)
Lemma payload_for_sends (m : gmap Z server.Client)
    (F : Z * server.Client -> protocol.LobbyState) (order : list Z) (k : Z)
    (c : server.Client) :
  k ∈ order -> m !! k = Some c ->
  server.payload_for
    (map (fun kc : Z * server.Client => (kc.1, F kc)) (server.range_clients m order)) k
  = Some (F (k, c)).
Proof.
  intros Hin Hk. unfold server.payload_for, server.range_clients.
  induction order as [|k0 order IH]; [inversion Hin|].
  cbn [omap list_omap].
  destruct (decide (k0 = k)) as [->|Hne].
  - rewrite Hk. cbn. now rewrite Z.eqb_refl.
  - assert (Hin' : k ∈ order) by (apply elem_of_cons in Hin as [->|?]; easy).
    destruct (m !! k0) as [c0|]; [|now apply IH].
    cbn. destruct (Z.eqb_spec k0 k); [easy | now apply IH].
Qed.

(** C5, as the code has it.  Two calls of [BroadcastLobbyState] on the
    same roster, configuration and network interfaces send every client
    payloads that agree on [IsHost], [CanStart], [ServerAddrs] and
    [PointsToWin] and whose player lists hold the same entries; the
    order of the entries follows the map iteration of each call. *)
Theorem BroadcastLobbyState_same_up_to_player_order (s : server.Server)
    (interfaces : option (list server.Interface)) (order1 order2 order1' order2' : list Z)
    (k : Z) (c : server.Client) :
  server.range_order (server.clients s) order1 ->
  server.range_order (server.clients s) order2 ->
  server.range_order (server.clients s) order1' ->
  server.range_order (server.clients s) order2' ->
  server.clients s !! k = Some c ->
  exists p p',
    server.payload_for (server.BroadcastLobbyState s interfaces order1 order2) k = Some p /\
    server.payload_for (server.BroadcastLobbyState s interfaces order1' order2') k = Some p' /\
    protocol.Players p ≡ₚ protocol.Players p' /\
    protocol.IsHost p = protocol.IsHost p' /\
    protocol.CanStart p = protocol.CanStart p' /\
    protocol.ServerAddrs p = protocol.ServerAddrs p' /\
    protocol.ls_PointsToWin p = protocol.ls_PointsToWin p'.
Proof.
  intros Ho1 Ho2 Ho1' Ho2' Hk. unfold server.BroadcastLobbyState. cbn zeta.
  do 2 eexists. split; [|split].
  - apply (payload_for_sends (server.clients s)
             (fun kc => protocol.mkLobbyState _ _ _ _ _) order2 k c);
      [eapply range_order_elem; eassumption | exact Hk].
  - apply (payload_for_sends (server.clients s)
             (fun kc => protocol.mkLobbyState _ _ _ _ _) order2' k c);
      [eapply range_order_elem; eassumption | exact Hk].
  - cbn. repeat split.
    assert (Hperm : order1 ≡ₚ order1').
    { unfold server.range_order in *. now rewrite Ho1, Ho1'. }
    unfold server.range_clients.
    match goal with
    | |- map ?f (omap ?g order1) ≡ₚ _ =>
        change (f <$> omap g order1 ≡ₚ f <$> omap g order1')
    end.
    now rewrite Hperm.
Qed.

Lemma lobby_80x24_orders :
  server.range_order (server.clients lobby_80x24) [1; 2] /\
  server.range_order (server.clients lobby_80x24) [2; 1].
Proof.
  unfold server.range_order.
  split; apply (bool_decide_unpack _); vm_compute; exact I.
Qed.

Lemma BroadcastLobbyState_same_up_to_player_order_witness :
  exists p p',
    server.payload_for (server.BroadcastLobbyState lobby_80x24 None [1; 2] [1; 2]) 1
    = Some p /\
    server.payload_for (server.BroadcastLobbyState lobby_80x24 None [2; 1] [2; 1]) 1
    = Some p' /\
    protocol.Players p ≡ₚ protocol.Players p' /\
    protocol.IsHost p = protocol.IsHost p'.
Proof.
  destruct lobby_80x24_orders as [H12 H21].
  destruct (BroadcastLobbyState_same_up_to_player_order lobby_80x24 None
              [1; 2] [1; 2] [2; 1] [2; 1] 1 (server.mkClient 1 "ann" 80 24 1)
              H12 H12 H21 H21 (proj1 lobby_80x24_clients))
    as (p & p' & Hp & Hp' & Hpl & Hh & _).
  exists p, p'. auto.
Defined.

(** C5 as stated fails: with the roster untouched, a second call whose
    first loop meets the two clients in the other order sends client 1
    a player list in the other order. *)
Lemma BroadcastLobbyState_payloads_differ :
  server.range_order (server.clients lobby_80x24) [1; 2] /\
  server.range_order (server.clients lobby_80x24) [2; 1] /\
  server.payload_for (server.BroadcastLobbyState lobby_80x24 None [1; 2] [1; 2]) 1
  <> server.payload_for (server.BroadcastLobbyState lobby_80x24 None [2; 1] [1; 2]) 1.
Proof.
  destruct lobby_80x24_orders as [H12 H21].
  split; [exact H12|]. split; [exact H21|].
  intros H. vm_compute in H. discriminate H.
Qed.

End Lobby.

(** * Further properties of the simulation *)

(** ** Ball kinematics *)

Section BallKinematics.

Local Open Scope R_scope.

(** X1.  [SpeedUp] by a non-negative factor multiplies the speed by
    that factor and leaves the position alone. *)
Theorem SpeedUp_scales_speed (b : ball.Ball) (factor : R) :
  0 <= factor ->
  ball.Speed (ball.SpeedUp b factor) = factor * ball.Speed b /\
  ball.X (ball.SpeedUp b factor) = ball.X b /\
  ball.Y (ball.SpeedUp b factor) = ball.Y b.
Proof.
  intros Hf. split; [|split; reflexivity].
  unfold ball.Speed, ball.SpeedUp. cbn [ball.VX ball.VY].
  now apply scaled_speed.
Qed.

Lemma SpeedUp_scales_speed_witness :
  ball.Speed (ball.SpeedUp fast_ball game.SpeedIncrement)
  = game.SpeedIncrement * ball.Speed fast_ball.
Proof.
  apply (SpeedUp_scales_speed fast_ball game.SpeedIncrement).
  unfold game.SpeedIncrement. lra.
Defined.




(** X3.  A hit on the centre of the paddle returns the ball
    horizontally: the vertical velocity is zero and the horizontal one
    is the full speed, reversed. *)
Theorem BounceOffPaddle_centre_hit (b : ball.Ball) (paddleHeight : Z) :
  (0 < paddleHeight)%Z ->
  let b' := ball.BounceOffPaddle b (ball.Y b) paddleHeight in
  ball.VY b' = 0 /\
  ball.VX b' = if GoFloat.gtb (ball.VX b) 0 then - ball.Speed b else ball.Speed b.
Proof.
  intros _. cbn zeta. unfold ball.BounceOffPaddle. cbn zeta.
  fold (ball.Speed b).
  assert (Hr : ball.relativeHit b (ball.Y b) paddleHeight = 0).
  { unfold ball.relativeHit. cbn zeta.
    replace ((ball.Y b - ball.Y b) / (GoFloat.of_int paddleHeight / 2)) with 0
      by (unfold Rdiv; ring).
    cmp_cases; lra. }
  rewrite Hr, Rmult_0_l, cos_0, sin_0.
  destruct (GoFloat.gtb (ball.VX b) 0); cbn [ball.VX ball.VY]; split; ring.
Qed.

Lemma BounceOffPaddle_centre_hit_witness :
  ball.VY (ball.BounceOffPaddle fast_ball 12 5) = 0.
Proof. apply (BounceOffPaddle_centre_hit fast_ball 5). lia. Defined.

Lemma launch_angle_sin (rnd : R) :
  0 <= rnd < 1 -> - (1 / 2) <= sin ((rnd - 0.5) * PI / 3) <= 1 / 2.
Proof.
  intros Hr. pose proof PI_RGT_0 as Hpi. split.
  - rewrite <- sin_PI6, <- sin_neg. apply sin_incr_1; nra.
  - rewrite <- sin_PI6. apply sin_incr_1; nra.
Qed.

(** X4.  [Reset] puts the ball on the given centre and launches it
    mostly sideways: for every draw of the launch angle the vertical
    speed is at most half of [InitialBallSpeed], the horizontal speed
    is more than half of it, and the horizontal direction is the
    requested one. *)
Theorem Reset_launch_is_flat (b : ball.Ball) (centerX centerY : R)
    (launchRight : bool) (rnd : R) :
  0 <= rnd < 1 ->
  let b' := ball.Reset b centerX centerY launchRight rnd in
  ball.X b' = centerX /\ ball.Y b' = centerY /\
  Rabs (ball.VY b') <= ball.InitialBallSpeed / 2 /\
  ball.InitialBallSpeed / 2 < Rabs (ball.VX b') /\
  (0 < ball.VX b' <-> launchRight = true).
Proof.
  intros Hr. cbn zeta. unfold ball.Reset. cbn zeta.
  pose proof (launch_angle_sin rnd Hr) as Hs.
  pose proof (launch_angle_cos_pos rnd Hr) as Hc.
  pose proof (sin2_cos2 ((rnd - 0.5) * PI / 3)) as H1. unfold Rsqr in H1.
  set (a := (rnd - 0.5) * PI / 3) in *.
  assert (Hc2 : 1 / 2 < cos a) by nra.
  unfold ball.InitialBallSpeed.
  split; [reflexivity|]. split; [reflexivity|]. cbn [ball.VX ball.VY].
  split; [apply Rabs_le; lra|].
  destruct launchRight.
  - split; [rewrite Rabs_right; lra|]. split; [reflexivity | intros _; lra].
  - split; [rewrite Rabs_left; lra|]. split; [lra | discriminate].
Qed.

Lemma Reset_launch_is_flat_witness :
  Rabs (ball.VY (ball.Reset fast_ball 40 12 true 0)) <= ball.InitialBallSpeed / 2.
Proof.
  apply (Reset_launch_is_flat fast_ball 40 12 true 0). lra.
Defined.

End BallKinematics.

(** ** Paddle variants *)

Section PaddleVariants.

Local Open Scope R_scope.







(** X8.  The one-step paddle moves once per key press: [Move] clears
    the direction, so however often [Move] runs again without a new
    [SetDirection], the paddle stays where the first [Move] put it. *)
Theorem oneshot_Move_once (p : paddle_oneshot.Paddle) (j : nat) :
  paddle_oneshot.Direction (paddle_oneshot.Move p) = protocol.DirNone /\
  Nat.iter (S j) paddle_oneshot.Move p = paddle_oneshot.Move p.
Proof.
  split; [reflexivity|].
  induction j as [|j IH]; [reflexivity|].
  rewrite Nat.iter_succ, IH. reflexivity.
Qed.

Lemma timeout_Move_idle (q : paddle_timeout.Paddle) :
  paddle_timeout.MovementTicks q = 0%Z ->
  paddle_timeout.Direction q = protocol.DirNone ->
  paddle_timeout.Move q = q.
Proof.
  intros Ht Hd. destruct q as [i t c y h co d ch mt]. cbn in *. subst.
  reflexivity.
Qed.

Lemma timeout_Move_ticking (q : paddle_timeout.Paddle) :
  (0 < paddle_timeout.MovementTicks q <= GoInt.max_int)%Z ->
  paddle_timeout.MovementTicks (paddle_timeout.Move q)
  = (paddle_timeout.MovementTicks q - 1)%Z /\
  paddle_timeout.Direction (paddle_timeout.Move q)
  = (if (paddle_timeout.MovementTicks q =? 1)%Z then protocol.DirNone
     else paddle_timeout.Direction q).
Proof.
  intros Ht. unfold paddle_timeout.Move. cbn zeta.
  destruct (Z.gtb_spec (paddle_timeout.MovementTicks q) 0); [|lia].
  cbn [paddle_timeout.MovementTicks paddle_timeout.Direction].
  unfold GoInt.sub. rewrite wrap64_in_range
    by (unfold GoInt.in_range, GoInt.min_int, GoInt.max_int in *; lia).
  split; [reflexivity|].
  destruct (Z.eqb_spec (paddle_timeout.MovementTicks q - 1) 0),
    (Z.eqb_spec (paddle_timeout.MovementTicks q) 1); (reflexivity || lia).
Qed.

Lemma timeout_iter_Move (q : paddle_timeout.Paddle) (j : nat) :
  (0 <= paddle_timeout.MovementTicks q <= GoInt.max_int)%Z ->
  (Z.of_nat j <= paddle_timeout.MovementTicks q)%Z ->
  paddle_timeout.MovementTicks (Nat.iter j paddle_timeout.Move q)
  = (paddle_timeout.MovementTicks q - Z.of_nat j)%Z /\
  ((Z.of_nat j < paddle_timeout.MovementTicks q)%Z ->
   paddle_timeout.Direction (Nat.iter j paddle_timeout.Move q)
   = paddle_timeout.Direction q) /\
  ((0 < Z.of_nat j)%Z -> Z.of_nat j = paddle_timeout.MovementTicks q ->
   paddle_timeout.Direction (Nat.iter j paddle_timeout.Move q) = protocol.DirNone).
Proof.
  intros Hq. induction j as [|j IH]; intros Hj.
  - change (Nat.iter 0 paddle_timeout.Move q) with q.
    split; [lia|]. split; [reflexivity | lia].
  - rewrite Nat.iter_succ. destruct IH as (IHt & IHd & _); [lia|].
    destruct (timeout_Move_ticking (Nat.iter j paddle_timeout.Move q)) as [Mt Md];
      [lia|].
    rewrite Mt, Md, IHt. split; [lia|]. split.
    + intros Hlt. destruct (Z.eqb_spec (paddle_timeout.MovementTicks q - Z.of_nat j) 1);
        [lia | apply IHd; lia].
    + intros _ He.
      destruct (Z.eqb_spec (paddle_timeout.MovementTicks q - Z.of_nat j) 1);
        [reflexivity | lia].
Qed.

(** X9.  A direction set on the direction-holding paddle is held for
    exactly [MovementTimeout] ticks: during the first 8 calls of [Move]
    the direction stays, the eighth clears it, and from then on [Move]
    leaves the paddle where it is. *)
Theorem timeout_direction_held_for_timeout (p : paddle_timeout.Paddle)
    (dir : protocol.Direction) (j : nat) :
  dir <> protocol.DirNone ->
  let q := paddle_timeout.SetDirection p dir in
  ((j < 8)%nat ->
   paddle_timeout.Direction (Nat.iter j paddle_timeout.Move q) = dir) /\
  ((8 <= j)%nat ->
   Nat.iter j paddle_timeout.Move q = Nat.iter 8 paddle_timeout.Move q /\
   paddle_timeout.Direction (Nat.iter j paddle_timeout.Move q) = protocol.DirNone).
Proof.
  intros Hdir. cbn zeta.
  set (q := paddle_timeout.SetDirection p dir).
  assert (Hq : paddle_timeout.MovementTicks q = 8%Z /\ paddle_timeout.Direction q = dir).
  { unfold q, paddle_timeout.SetDirection. cbn.
    destruct (Z.eqb_spec dir protocol.DirNone); [easy | now cbn]. }
  destruct Hq as [Hqt Hqd].
  assert (Hr : (0 <= paddle_timeout.MovementTicks q <= GoInt.max_int)%Z)
    by (rewrite Hqt; unfold GoInt.max_int; lia).
  split.
  - intros Hj. destruct (timeout_iter_Move q j Hr) as (_ & Hd & _); [lia|].
    rewrite Hd by lia. exact Hqd.
  - intros Hj.
    destruct (timeout_iter_Move q 8 Hr) as (Ht8 & _ & Hd8); [lia|].
    assert (Hstay : forall n, Nat.iter (n + 8) paddle_timeout.Move q
                              = Nat.iter 8 paddle_timeout.Move q).
    { induction n as [|n IHn]; [reflexivity|].
      change (S n + 8)%nat with (S (n + 8)). rewrite Nat.iter_succ, IHn.
      apply timeout_Move_idle; [rewrite Ht8, Hqt; reflexivity | apply Hd8; lia]. }
    replace j with (j - 8 + 8)%nat by lia. rewrite Hstay.
    split; [reflexivity | apply Hd8; lia].
Qed.

Lemma timeout_direction_held_for_timeout_witness :
  paddle_timeout.Direction (Nat.iter 7 paddle_timeout.Move held_example)
  = protocol.DirUp /\
  paddle_timeout.Direction (Nat.iter 8 paddle_timeout.Move held_example)
  = protocol.DirNone.
Proof.
  split.
  - apply (timeout_direction_held_for_timeout _ protocol.DirUp 7); [easy | lia].
  - apply (timeout_direction_held_for_timeout _ protocol.DirUp 8); [easy | lia].
Defined.

End PaddleVariants.

(** ** The match state *)

Section MatchState.

Lemma lookupID_app (ps : list paddle.Paddle) (pad : paddle.Paddle) (id : Z) :
  game.lookupID (ps ++ [pad]) id =
  match game.lookupID ps id with
  | Some i => Some i
  | None => if paddle.ID pad =? id then Some (length ps) else None
  end.
Proof.
  induction ps as [|p ps IH]; cbn [app game.lookupID length].
  - now destruct (paddle.ID pad =? id).
  - destruct (paddle.ID p =? id); [reflexivity|]. rewrite IH.
    destruct (game.lookupID ps id); [reflexivity|].
    now destruct (paddle.ID pad =? id).
Qed.

Lemma lookupID_Some (ps : list paddle.Paddle) (id : Z) (i : nat) :
  game.lookupID ps id = Some i ->
  exists p, ps !! i = Some p /\ paddle.ID p = id.
Proof.
  revert i. induction ps as [|p ps IH]; intros i; cbn [game.lookupID]; [discriminate|].
  destruct (Z.eqb_spec (paddle.ID p) id) as [E|E].
  - intros [= <-]. now exists p.
  - destruct (game.lookupID ps id) as [j|]; [|discriminate].
    intros [= <-]. apply (IH j eq_refl).
Qed.

Lemma lookupID_None (ps : list paddle.Paddle) (id : Z) :
  game.lookupID ps id = None <-> Forall (fun p => paddle.ID p <> id) ps.
Proof.
  induction ps as [|p ps IH]; cbn [game.lookupID].
  - split; [constructor | reflexivity].
  - destruct (Z.eqb_spec (paddle.ID p) id) as [E|E].
    + split; [discriminate | intros H; inversion H; contradiction].
    + destruct (game.lookupID ps id) as [j|].
      * split; [discriminate|]. intros H. inversion H as [|? ? _ Hps]; subst.
        now apply IH in Hps.
      * split; [intros _; constructor; [exact E | now apply IH] | reflexivity].
Qed.

(** X10.  [GetPaddle] after [AddPlayer]: a player that already had a
    paddle keeps it (the first paddle with the ID wins), the new
    player's ID now finds the new paddle, and every other ID still
    finds nothing.  A paddle that is found carries the ID asked for,
    and nothing is found exactly when no paddle carries it. *)
Theorem GetPaddle_AddPlayer (gs : game.GameState) (id : Z) (name : string) (id' : Z) :
  game.GetPaddle (game.AddPlayer gs id name).1 id' =
  match game.GetPaddle gs id' with
  | Some p => Some p
  | None => if id' =? id then Some (game.AddPlayer gs id name).2 else None
  end /\
  (forall p, game.GetPaddle gs id' = Some p -> paddle.ID p = id' /\ p ∈ game.Paddles gs) /\
  (game.GetPaddle gs id' = None <->
   Forall (fun p => paddle.ID p <> id') (game.Paddles gs)).
Proof.
  split; [|split].
  - unfold game.GetPaddle, game.GetPaddleRef, game.AddPlayer.
    cbn [fst snd game.Paddles game.set_Paddles game.set_Players].
    rewrite lookupID_app. cbn [paddle.ID paddle.NewPaddle].
    destruct (game.lookupID (game.Paddles gs) id') as [i|] eqn:E.
    + destruct (lookupID_Some _ _ _ E) as (p & Hp & _).
      rewrite Hp. apply lookup_app_l_Some. exact Hp.
    + rewrite (Z.eqb_sym id id').
      destruct (id' =? id); [|reflexivity].
      rewrite lookup_app_r by lia. now rewrite Nat.sub_diag.
  - intros p. unfold game.GetPaddle, game.GetPaddleRef.
    destruct (game.lookupID (game.Paddles gs) id') as [i|] eqn:E; [|discriminate].
    destruct (lookupID_Some _ _ _ E) as (q & Hq & Hid). rewrite Hq.
    intros [= <-]. split; [exact Hid|]. eapply list_elem_of_lookup_2, Hq.
  - unfold game.GetPaddle, game.GetPaddleRef. rewrite <- lookupID_None.
    destruct (game.lookupID (game.Paddles gs) id') as [i|] eqn:E; [|easy].
    destruct (lookupID_Some _ _ _ E) as (q & Hq & _). rewrite Hq. easy.
Qed.

Lemma GetPaddle_AddPlayer_witness :
  paddle.ID (paddle.mkPaddle 2 protocol.TeamRight 69 12 12 5 1 24) = 2 /\
  paddle.mkPaddle 2 protocol.TeamRight 69 12 12 5 1 24 ∈ game.Paddles serve_example.
Proof.
  apply (proj1 (proj2 (GetPaddle_AddPlayer serve_example 9 "P9" 2))).
  reflexivity.
Defined.

Lemma set_Paddles_same (gs : game.GameState) : game.set_Paddles gs (game.Paddles gs) = gs.
Proof. now destruct gs. Qed.

(** X11.  [ProcessInput] only retargets: ball, scores and phase are as
    before, no paddle changes its position, and the paddles of other
    players are untouched.  Input for a player without a paddle leaves
    the whole state as it is. *)
Theorem ProcessInput_only_retargets (gs : game.GameState) (playerID : Z)
    (dir : protocol.Direction) :
  let gs' := game.ProcessInput gs playerID dir in
  game.set_Paddles gs' (game.Paddles gs) = gs /\
  paddle.Y <$> game.Paddles gs' = paddle.Y <$> game.Paddles gs /\
  (forall j p, game.Paddles gs !! j = Some p -> paddle.ID p <> playerID ->
     game.Paddles gs' !! j = Some p) /\
  (game.GetPaddle gs playerID = None -> gs' = gs).
Proof.
  cbn zeta. unfold game.ProcessInput, game.GetPaddle, game.GetPaddleRef.
  destruct (game.lookupID (game.Paddles gs) playerID) as [i|] eqn:E.
  - destruct (lookupID_Some _ _ _ E) as (q & Hq & Hid).
    split; [now destruct gs|]. cbn [game.Paddles game.set_Paddles]. split; [|split].
    + rewrite (list_fmap_alter paddle.Y _ (fun y => y)).
      * apply list_alter_id. reflexivity.
      * apply Forall_forall. intros p _. apply (smooth_ProcessInput_Y p dir).
    + intros j p Hp Hne. rewrite list_lookup_alter_ne; [exact Hp|].
      intros ->. rewrite Hq in Hp. injection Hp as ->. contradiction.
    + rewrite Hq. discriminate.
  - split; [apply set_Paddles_same|]. split; [reflexivity|]. split; [auto | reflexivity].
Qed.

Lemma ProcessInput_only_retargets_witness :
  game.ProcessInput serve_example 7 protocol.DirUp = serve_example.
Proof.
  apply (ProcessInput_only_retargets serve_example 7 protocol.DirUp). reflexivity.
Defined.

(** X12.  With the ball right of the goal line ([X > Width]) in a court
    of non-negative width, [CheckScore] adds one to the left score,
    keeps the right score, records the left team as last scorer and
    starts the pause. *)
Theorem CheckScore_past_right_edge (gs : game.GameState) :
  0 <= game.Width gs ->
  (GoFloat.of_int (game.Width gs) < ball.X (game.Ball gs))%R ->
  GoInt.min_int <= game.LeftScore gs < GoInt.max_int ->
  let gs' := game.CheckScore gs in
  game.LeftScore gs' = game.LeftScore gs + 1 /\
  game.RightScore gs' = game.RightScore gs /\
  game.LastScorer gs' = protocol.TeamLeft /\
  game.Paused gs' = true /\
  game.PauseTicksLeft gs' = game.TickRate.
Proof.
  intros Hw Hx Hs. cbn zeta. unfold game.CheckScore.
  assert (H0 : (0 <= IZR (game.Width gs))%R) by (apply IZR_le; lia).
  unfold GoFloat.of_int in *.
  assert (E1 : GoFloat.ltb (ball.X (game.Ball gs)) 0 = false) by (apply ltb_false; lra).
  assert (E2 : GoFloat.gtb (ball.X (game.Ball gs)) (IZR (game.Width gs)) = true)
    by (now apply gtb_spec).
  rewrite E1. cbn zeta. rewrite E2. cbn.
  unfold GoInt.add. rewrite wrap64_in_range.
  - repeat split; reflexivity.
  - unfold GoInt.in_range, GoInt.min_int, GoInt.max_int in *. lia.
Qed.

Lemma CheckScore_past_right_edge_witness :
  game.LeftScore (game.CheckScore match_point_example) = 10 /\
  game.Paused (game.CheckScore match_point_example) = true.
Proof.
  destruct (CheckScore_past_right_edge match_point_example) as (Hl & _ & _ & Hp & _).
  - cbn. lia.
  - unfold GoFloat.of_int. cbn. lra.
  - cbn. unfold GoInt.min_int, GoInt.max_int. lia.
  - split; [exact Hl | exact Hp].
Defined.

(** X13.  While the ball is between the goal lines, [CheckScore] does
    nothing. *)
Theorem CheckScore_in_play (gs : game.GameState) :
  (0 <= ball.X (game.Ball gs) <= GoFloat.of_int (game.Width gs))%R ->
  game.CheckScore gs = gs.
Proof.
  intros [H0 H1]. unfold game.CheckScore.
  apply ltb_false in H0. apply gtb_false in H1. now rewrite H0, H1.
Qed.

Lemma CheckScore_in_play_witness : game.CheckScore serve_example = serve_example.
Proof.
  apply (CheckScore_in_play serve_example). unfold GoFloat.of_int. cbn. lra.
Defined.

(** X14.  When [IsGameOver] holds, the team [GetWinner] names has
    reached [PointsToWin]; [GetWinner] prefers the left team when both
    have. *)
Theorem GetWinner_reached_target (gs : game.GameState) :
  game.IsGameOver gs = true ->
  (game.GetWinner gs = protocol.TeamLeft /\ game.PointsToWin gs <= game.LeftScore gs) \/
  (game.GetWinner gs = protocol.TeamRight /\ game.PointsToWin gs <= game.RightScore gs /\
   game.LeftScore gs < game.PointsToWin gs).
Proof.
  unfold game.IsGameOver, game.GetWinner.
  destruct (Z.geb_spec (game.LeftScore gs) (game.PointsToWin gs)) as [Hl|Hl].
  - intros _. left. split; [reflexivity | lia].
  - cbn [orb]. destruct (Z.geb_spec (game.RightScore gs) (game.PointsToWin gs)); [|discriminate].
    intros _. right. repeat split; [lia | lia].
Qed.

Lemma GetWinner_reached_target_witness :
  game.GetWinner finished_example = protocol.TeamLeft /\
  game.PointsToWin finished_example <= game.LeftScore finished_example.
Proof.
  destruct (GetWinner_reached_target finished_example) as [H | [Hw _]].
  - reflexivity.
  - exact H.
  - discriminate Hw.
Defined.

End MatchState.

(** ** Pause, serve and scoring over ticks *)

Section Ticks.

(** One tick of the post-score pause. *)
Lemma Update_paused_step (g : game.GameState) :
  game.Paused g = true ->
  GoInt.min_int < game.PauseTicksLeft g <= GoInt.max_int ->
  game.Update g =
  if game.PauseTicksLeft g - 1 <=? 0 then
    game.mkGameState (game.Width g) (game.Height g)
      (ball.mkBall (GoFloat.of_int (game.Width g) / 2) (GoFloat.of_int (game.Height g) / 2)
         0 0)
      (game.Paddles g) (game.Players g) (game.LeftScore g) (game.RightScore g)
      (game.PointsToWin g) (GoInt.add (game.Tick g) 1) false 0 (game.LastScorer g) true
      (game.LastScorer g)
  else
    game.mkGameState (game.Width g) (game.Height g) (game.Ball g) (game.Paddles g)
      (game.Players g) (game.LeftScore g) (game.RightScore g) (game.PointsToWin g)
      (GoInt.add (game.Tick g) 1) true (game.PauseTicksLeft g - 1) (game.LastScorer g)
      (game.WaitingForServe g) (game.ServingTeam g).
Proof.
  intros Hp Ht. destruct g as [w h b ps pl ls rs ptw tk pa ptl lsc wfs st].
  cbn in Hp, Ht. subst pa. unfold game.Update. cbn.
  unfold GoInt.sub. rewrite wrap64_in_range
    by (unfold GoInt.in_range, GoInt.min_int, GoInt.max_int in *; lia).
  now destruct (ptl - 1 <=? 0).
Qed.

(** While the pause runs, a tick changes the tick counter and the
    pause counter only. *)
Lemma pause_counting_down (gs : game.GameState) (k j : nat) :
  game.Paused gs = true ->
  game.PauseTicksLeft gs = Z.of_nat k ->
  Z.of_nat k <= GoInt.max_int ->
  (j < k)%nat ->
  let g := Nat.iter j game.Update gs in
  game.set_Tick g 0 = game.set_Tick (game.set_PauseTicksLeft gs (Z.of_nat (k - j))) 0.
Proof.
  intros Hp Hk Hmax. cbn zeta. induction j as [|j IH]; intros Hj.
  - change (Nat.iter 0 game.Update gs) with gs.
    rewrite Nat.sub_0_r, <- Hk. now destruct gs.
  - rewrite Nat.iter_succ. specialize (IH ltac:(lia)).
    set (g := Nat.iter j game.Update gs) in *.
    assert (Hgp : game.Paused g = true).
    { apply (f_equal game.Paused) in IH. cbn in IH. now rewrite IH. }
    assert (Hgt : game.PauseTicksLeft g = Z.of_nat (k - j)).
    { apply (f_equal game.PauseTicksLeft) in IH. exact IH. }
    rewrite Update_paused_step; [|exact Hgp|rewrite Hgt; unfold GoInt.min_int; lia].
    rewrite Hgt. destruct (Z.leb_spec (Z.of_nat (k - j) - 1) 0); [lia|].
    replace (Z.of_nat (k - j) - 1) with (Z.of_nat (k - S j)) by lia.
    destruct g as [w h b ps pl ls rs ptw tk pa ptl lsc wfs st].
    destruct gs as [w0 h0 b0 ps0 pl0 ls0 rs0 ptw0 tk0 pa0 ptl0 lsc0 wfs0 st0].
    cbn in *. injection IH as -> -> -> -> -> -> -> -> -> -> -> -> ->.
    subst pa0. reflexivity.
Qed.

(** X15.  The post-score pause runs its course: from a paused state
    with [k] pause ticks left, the first [k - 1] ticks only count down
    (ball, paddles and scores stay), and the [k]-th tick ends the pause,
    enters [WaitingForServe] with the last scorer as serving team and
    puts the ball at rest on the court centre.  After a goal [k] is
    [TickRate], one second of play. *)
Theorem pause_runs_its_course (gs : game.GameState) (k j : nat) :
  game.Paused gs = true ->
  game.PauseTicksLeft gs = Z.of_nat k ->
  Z.of_nat k <= GoInt.max_int ->
  (0 < k)%nat ->
  let g := Nat.iter j game.Update gs in
  ((j < k)%nat ->
   game.Paused g = true /\ game.PauseTicksLeft g = Z.of_nat (k - j) /\
   game.WaitingForServe g = game.WaitingForServe gs /\
   game.Ball g = game.Ball gs /\ game.Paddles g = game.Paddles gs /\
   game.LeftScore g = game.LeftScore gs /\ game.RightScore g = game.RightScore gs) /\
  (j = k ->
   game.Paused g = false /\ game.PauseTicksLeft g = 0 /\
   game.WaitingForServe g = true /\ game.ServingTeam g = game.LastScorer gs /\
   game.Ball g =
     ball.mkBall (GoFloat.of_int (game.Width gs) / 2) (GoFloat.of_int (game.Height gs) / 2)
       0 0 /\
   game.Paddles g = game.Paddles gs /\
   game.LeftScore g = game.LeftScore gs /\ game.RightScore g = game.RightScore gs).
Proof.
  intros Hp Hk Hmax Hpos. cbn zeta. split.
  - intros Hj. pose proof (pause_counting_down gs k j Hp Hk Hmax Hj) as H.
    cbn zeta in H.
    repeat split;
      [ apply (f_equal game.Paused) in H
      | apply (f_equal game.PauseTicksLeft) in H
      | apply (f_equal game.WaitingForServe) in H
      | apply (f_equal game.Ball) in H
      | apply (f_equal game.Paddles) in H
      | apply (f_equal game.LeftScore) in H
      | apply (f_equal game.RightScore) in H ];
      cbn in H; rewrite H; try reflexivity; exact Hp.
  - intros ->. destruct k as [|k]; [lia|]. rewrite Nat.iter_succ.
    pose proof (pause_counting_down gs (S k) k Hp Hk Hmax ltac:(lia)) as H.
    cbn zeta in H. set (g := Nat.iter k game.Update gs) in *.
    assert (Hgp : game.Paused g = true).
    { apply (f_equal game.Paused) in H. cbn in H. now rewrite H. }
    assert (Hgt : game.PauseTicksLeft g = 1).
    { apply (f_equal game.PauseTicksLeft) in H. cbn in H. rewrite H. lia. }
    rewrite Update_paused_step;
      [|exact Hgp|rewrite Hgt; unfold GoInt.min_int, GoInt.max_int; lia].
    rewrite Hgt. cbn [Z.sub Z.add Z.opp Z.pos_sub Z.leb Z.compare].
    destruct g as [w h b ps pl ls rs ptw tk pa ptl lsc wfs st].
    destruct gs as [w0 h0 b0 ps0 pl0 ls0 rs0 ptw0 tk0 pa0 ptl0 lsc0 wfs0 st0].
    cbn in *. injection H as -> -> -> -> -> -> -> -> -> -> -> -> ->.
    repeat split.
Qed.

Lemma pause_runs_its_course_witness :
  game.Paused (Nat.iter 59 game.Update paused_example) = true /\
  game.WaitingForServe (Nat.iter 60 game.Update paused_example) = true /\
  game.ServingTeam (Nat.iter 60 game.Update paused_example) = protocol.TeamRight.
Proof.
  assert (Hmax : Z.of_nat 60 <= GoInt.max_int) by (unfold GoInt.max_int; lia).
  split; [|split].
  - apply (pause_runs_its_course paused_example 60 59 eq_refl eq_refl Hmax); lia.
  - apply (pause_runs_its_course paused_example 60 60 eq_refl eq_refl Hmax); lia.
  - apply (pause_runs_its_course paused_example 60 60 eq_refl eq_refl Hmax); lia.
Defined.

(** X16.  In [WaitingForServe] the ball waits: however many ticks pass
    without a [Serve], the state stays in [WaitingForServe], unpaused,
    with the same ball and the same scores. *)
Theorem ball_waits_for_serve (gs : game.GameState) (j : nat) :
  game.Paused gs = false ->
  game.WaitingForServe gs = true ->
  let g := Nat.iter j game.Update gs in
  game.Paused g = false /\ game.WaitingForServe g = true /\
  game.Ball g = game.Ball gs /\
  game.LeftScore g = game.LeftScore gs /\ game.RightScore g = game.RightScore gs /\
  game.ServingTeam g = game.ServingTeam gs.
Proof.
  intros Hp Hw. cbn zeta. induction j as [|j IH]; [easy|].
  rewrite Nat.iter_succ. set (g := Nat.iter j game.Update gs) in *.
  destruct IH as (IHp & IHw & IHb & IHl & IHr & IHs).
  rewrite <- IHb, <- IHl, <- IHr, <- IHs.
  destruct g as [w h b ps pl ls rs ptw tk pa ptl lsc wfs st].
  cbn in IHp, IHw. subst pa wfs. unfold game.Update. cbn. easy.
Qed.

Lemma ball_waits_for_serve_witness :
  game.Ball (Nat.iter 100 game.Update serve_example) = game.Ball serve_example.
Proof. apply (ball_waits_for_serve serve_example 100); reflexivity. Defined.

Lemma checkPaddleCollisions_frame (gs : game.GameState) :
  game.checkPaddleCollisions gs
  = game.set_Ball gs (game.Ball (game.checkPaddleCollisions gs)).
Proof.
  unfold game.checkPaddleCollisions.
  destruct (checkPaddleCollisions_loop_cases gs (game.Paddles gs))
    as [-> | (p & _ & ->)]; now destruct gs.
Qed.

Lemma wallBounce_frame (gs : game.GameState) :
  game.wallBounce gs = game.set_Ball gs (game.Ball (game.wallBounce gs)).
Proof. unfold game.wallBounce. cbn zeta. destruct (_ || _); now destruct gs. Qed.

(** The three outcomes of [CheckScore] in a court of non-negative
    width. *)
Lemma CheckScore_cases (gs : game.GameState) :
  0 <= game.Width gs ->
  game.CheckScore gs = gs \/
  game.CheckScore gs =
    game.startPause
      (game.set_LastScorer (game.set_RightScore gs (GoInt.add (game.RightScore gs) 1))
         protocol.TeamRight) \/
  game.CheckScore gs =
    game.startPause
      (game.set_LastScorer (game.set_LeftScore gs (GoInt.add (game.LeftScore gs) 1))
         protocol.TeamLeft).
Proof.
  intros Hw. unfold game.CheckScore.
  assert (H0 : (0 <= IZR (game.Width gs))%R) by (apply IZR_le; lia).
  destruct (GoFloat.ltb (ball.X (game.Ball gs)) 0) eqn:E1.
  - apply ltb_spec in E1. cbn zeta.
    assert (E2 : GoFloat.gtb (ball.X (game.Ball gs)) (GoFloat.of_int (game.Width gs))
                 = false) by (apply gtb_false; unfold GoFloat.of_int; lra).
    cbn. rewrite E2. right. left. reflexivity.
  - cbn zeta. destruct (GoFloat.gtb _ _); [right; right | left]; reflexivity.
Qed.

(** X17.  A tick awards at most one point.  In a court of non-negative
    width, with scores that can still be incremented, [Update] either
    leaves both scores or adds exactly one point to exactly one team,
    names that team as last scorer and starts the pause of [TickRate]
    ticks.  A paused state never scores. *)
Theorem Update_awards_at_most_one_point (gs : game.GameState) :
  0 <= game.Width gs ->
  GoInt.min_int <= game.LeftScore gs < GoInt.max_int ->
  GoInt.min_int <= game.RightScore gs < GoInt.max_int ->
  let g := game.Update gs in
  ((game.LeftScore g = game.LeftScore gs /\ game.RightScore g = game.RightScore gs) \/
   (game.LeftScore g = game.LeftScore gs + 1 /\ game.RightScore g = game.RightScore gs /\
    game.LastScorer g = protocol.TeamLeft /\ game.Paused g = true /\
    game.PauseTicksLeft g = game.TickRate) \/
   (game.RightScore g = game.RightScore gs + 1 /\ game.LeftScore g = game.LeftScore gs /\
    game.LastScorer g = protocol.TeamRight /\ game.Paused g = true /\
    game.PauseTicksLeft g = game.TickRate)) /\
  (game.Paused gs = true \/ game.WaitingForServe gs = true ->
   game.LeftScore g = game.LeftScore gs /\ game.RightScore g = game.RightScore gs).
Proof.
  intros Hw Hl Hr. cbn zeta.
  assert (Hidle : game.Paused gs = true \/ game.WaitingForServe gs = true ->
                  game.LeftScore (game.Update gs) = game.LeftScore gs /\
                  game.RightScore (game.Update gs) = game.RightScore gs).
  { unfold game.Update. cbn zeta.
    cbn [game.Paused game.set_Tick game.PauseTicksLeft game.set_PauseTicksLeft
         game.WaitingForServe game.set_Paddles].
    destruct (game.Paused gs).
    - intros _. now destruct (_ <=? 0).
    - intros [?|Hwfs]; [discriminate|]. now rewrite Hwfs. }
  split; [|exact Hidle].
  destruct (game.Paused gs) eqn:Hp; [left; apply Hidle; now left|].
  destruct (game.WaitingForServe gs) eqn:Hwfs; [left; apply Hidle; now right|].
  unfold game.Update. cbn zeta.
  cbn [game.Paused game.set_Tick game.WaitingForServe game.set_Paddles].
  rewrite Hp, Hwfs.
  rewrite checkPaddleCollisions_frame, wallBounce_frame.
  set (b := game.Ball (game.checkPaddleCollisions _)).
  cbn [game.set_Ball game.Width game.Height game.Paddles game.Players game.LeftScore
       game.RightScore game.PointsToWin game.Tick game.Paused game.PauseTicksLeft
       game.LastScorer game.WaitingForServe game.ServingTeam game.set_Paddles
       game.set_Tick].
  match goal with |- context [game.CheckScore ?s] =>
    destruct (CheckScore_cases s Hw) as [-> | [-> | ->]] end.
  - left. split; reflexivity.
  - right. right. cbn. unfold GoInt.add. rewrite wrap64_in_range
      by (unfold GoInt.in_range, GoInt.min_int, GoInt.max_int in *; lia).
    repeat split.
  - right. left. cbn. unfold GoInt.add. rewrite wrap64_in_range
      by (unfold GoInt.in_range, GoInt.min_int, GoInt.max_int in *; lia).
    repeat split.
Qed.

Lemma Update_awards_at_most_one_point_witness :
  game.LeftScore (game.Update paused_example) = game.LeftScore paused_example /\
  game.RightScore (game.Update paused_example) = game.RightScore paused_example.
Proof.
  apply (Update_awards_at_most_one_point paused_example).
  - cbn. lia.
  - cbn. unfold GoInt.min_int, GoInt.max_int. lia.
  - cbn. unfold GoInt.min_int, GoInt.max_int. lia.
  - left. reflexivity.
Defined.

End Ticks.

(** ** What team assignment writes *)

Section Assignment.

Lemma assignTeamPaddles_loop_other (gsHeight : Z) (team : protocol.Team)
    (height columnStart columnSpacing i : Z) (ptrs : list nat)
    (store : list paddle.Paddle) (ptr : nat) :
  ptr ∉ ptrs ->
  game.assignTeamPaddles_loop gsHeight team height columnStart columnSpacing i ptrs
    store !! ptr
  = store !! ptr.
Proof.
  revert i store. induction ptrs as [|q ptrs IH]; intros i store Hnin;
    cbn [game.assignTeamPaddles_loop]; [reflexivity|].
  apply not_elem_of_cons in Hnin as [Hne Hnin].
  rewrite IH by exact Hnin. now apply list_lookup_alter_ne.
Qed.

Lemma assignTeamPaddles_loop_at (gsHeight : Z) (team : protocol.Team)
    (height columnStart columnSpacing i : Z) (ptrs : list nat)
    (store : list paddle.Paddle) (k ptr : nat) (p0 : paddle.Paddle) :
  NoDup ptrs ->
  ptrs !! k = Some ptr ->
  store !! ptr = Some p0 ->
  game.assignTeamPaddles_loop gsHeight team height columnStart columnSpacing i ptrs
    store !! ptr
  = Some
      (paddle.mkPaddle (paddle.ID p0) team
         (GoInt.add columnStart (GoInt.mul (i + Z.of_nat k + 1) columnSpacing))
         (GoFloat.of_int gsHeight / 2) (GoFloat.of_int gsHeight / 2) height
         (paddle.Color p0) gsHeight).
Proof.
  revert i store k. induction ptrs as [|q ptrs IH]; intros i store k Hnd Hk Hp;
    [discriminate|].
  apply NoDup_cons in Hnd as [Hq Hnd]. cbn [game.assignTeamPaddles_loop].
  destruct k as [|k].
  - injection Hk as ->. rewrite assignTeamPaddles_loop_other by exact Hq.
    rewrite list_lookup_alter, decide_True by reflexivity. rewrite Hp. cbn.
    now rewrite Z.add_0_r.
  - cbn in Hk.
    assert (Hne : q <> ptr).
    { intros ->. apply Hq. eapply list_elem_of_lookup_2, Hk. }
    rewrite (IH (i + 1) _ k Hnd Hk) by (now rewrite list_lookup_alter_ne).
    replace (i + 1 + Z.of_nat k + 1) with (i + Z.of_nat (S k) + 1) by lia.
    reflexivity.
Qed.

Lemma assignTeamPaddles_other (gs : game.GameState) (ptrs : list nat)
    (team : protocol.Team) (height : Z) (ptr : nat) :
  ptr ∉ ptrs ->
  game.Paddles (game.assignTeamPaddles gs ptrs team height) !! ptr
  = game.Paddles gs !! ptr.
Proof.
  intros Hnin. unfold game.assignTeamPaddles. destruct (_ =? 0); [reflexivity|].
  cbn [game.Paddles game.set_Paddles]. now apply assignTeamPaddles_loop_other.
Qed.

Lemma assignTeamPaddles_at (gs : game.GameState) (ptrs : list nat)
    (team : protocol.Team) (k ptr : nat) (p0 : paddle.Paddle) :
  NoDup ptrs ->
  ptrs !! k = Some ptr ->
  game.Paddles gs !! ptr = Some p0 ->
  game.Paddles
    (game.assignTeamPaddles gs ptrs team (game.CalculatePaddleHeight (GoInt.len ptrs)))
    !! ptr
  = Some (assignedPaddle (game.Width gs) (game.Height gs) team (GoInt.len ptrs)
            (Z.of_nat k) p0).
Proof.
  intros Hnd Hk Hp. unfold game.assignTeamPaddles.
  destruct (Z.eqb_spec (GoInt.len ptrs) 0) as [E|E].
  - unfold GoInt.len in E. destruct ptrs; [discriminate | cbn in E; lia].
  - cbn [game.Paddles game.set_Paddles].
    rewrite (assignTeamPaddles_loop_at _ _ _ _ _ _ _ _ k ptr p0 Hnd Hk Hp).
    unfold assignedPaddle. now rewrite Z.add_0_l.
Qed.

(** The paddle behind each pointer after [AssignTeams], by the position
    [k] of the pointer in the shuffled order: the first [N / 2]
    positions are the left team, the others the right team. *)
Lemma AssignTeams_at (gs : game.GameState) (shuffled : list nat) (coin : Z) (rnd : R)
    (k ptr : nat) (p0 : paddle.Paddle) :
  shuffled ≡ₚ seq 0 (length (game.Paddles gs)) ->
  shuffled !! k = Some ptr ->
  game.Paddles gs !! ptr = Some p0 ->
  let N := GoInt.len (game.Paddles gs) in
  let half := Z.quot N 2 in
  game.Paddles (game.AssignTeams gs shuffled coin rnd) !! ptr
  = Some
      (if Z.of_nat k <? half
       then assignedPaddle (game.Width gs) (game.Height gs) protocol.TeamLeft half
              (Z.of_nat k) p0
       else assignedPaddle (game.Width gs) (game.Height gs) protocol.TeamRight
              (N - half) (Z.of_nat k - half) p0).
Proof.
  intros Hperm Hk Hp. cbn zeta.
  assert (Hlen : length shuffled = length (game.Paddles gs))
    by (rewrite Hperm; apply length_seq).
  assert (Hnd : NoDup (take (Z.to_nat (Z.quot (GoInt.len shuffled) 2)) shuffled
                       ++ drop (Z.to_nat (Z.quot (GoInt.len shuffled) 2)) shuffled)).
  { rewrite take_drop, Hperm. apply NoDup_seq. }
  apply NoDup_app in Hnd as (Hndl & Hdisj & Hndr).
  unfold game.AssignTeams.
  destruct (Z.eqb_spec (GoInt.len (game.Paddles gs)) 0) as [E|E].
  { unfold GoInt.len in E. apply lookup_lt_Some in Hp. lia. }
  cbn zeta. cbn [game.Paddles game.set_Ball].
  assert (HN : GoInt.len shuffled = GoInt.len (game.Paddles gs))
    by (unfold GoInt.len; now rewrite Hlen).
  rewrite HN in *.
  set (n := GoInt.len (game.Paddles gs)) in *.
  assert (Hn : 0 <= n) by (unfold n, GoInt.len; lia).
  assert (Hq : 0 <= Z.quot n 2 <= n).
  { rewrite Z.quot_div_nonneg by lia. split; [apply Z.div_pos; lia|].
    apply Z.div_le_upper_bound; lia. }
  set (h := Z.to_nat (Z.quot n 2)) in *.
  assert (Hh : Z.of_nat h = Z.quot n 2) by (unfold h; lia).
  assert (Hhn : (h <= length shuffled)%nat) by (unfold n, GoInt.len in *; lia).
  assert (Hll : GoInt.len (take h shuffled) = Z.quot n 2).
  { unfold GoInt.len. rewrite length_take. lia. }
  assert (Hlr : GoInt.len (drop h shuffled) = n - Z.quot n 2).
  { unfold GoInt.len. rewrite length_drop. unfold n, GoInt.len in *. lia. }
  destruct (Z.ltb_spec (Z.of_nat k) (Z.quot n 2)) as [Hlt|Hge].
  - assert (Hkl : take h shuffled !! k = Some ptr)
      by (rewrite lookup_take_lt by lia; exact Hk).
    rewrite assignTeamPaddles_other.
    2:{ intros Hin. apply (Hdisj ptr); [eapply list_elem_of_lookup_2, Hkl | exact Hin]. }
    rewrite (assignTeamPaddles_at gs _ _ k ptr p0 Hndl Hkl Hp). now rewrite Hll.
  - assert (Hkr : drop h shuffled !! (k - h)%nat = Some ptr).
    { rewrite lookup_drop. replace (h + (k - h))%nat with k by lia. exact Hk. }
    assert (Hnl : ptr ∉ take h shuffled).
    { intros Hin. apply (Hdisj ptr Hin). eapply list_elem_of_lookup_2, Hkr. }
    set (gs1 := game.assignTeamPaddles gs (take h shuffled) protocol.TeamLeft _).
    assert (Hp1 : game.Paddles gs1 !! ptr = Some p0)
      by (unfold gs1; rewrite assignTeamPaddles_other; easy).
    rewrite (assignTeamPaddles_at gs1 _ _ (k - h) ptr p0 Hndr Hkr Hp1).
    rewrite Hlr. unfold gs1.
    destruct (assignTeamPaddles_Width_Height gs (take h shuffled) protocol.TeamLeft
                (game.CalculatePaddleHeight (GoInt.len (take h shuffled)))) as [-> ->].
    replace (Z.of_nat (k - h)) with (Z.of_nat k - Z.quot n 2) by lia.
    reflexivity.
Qed.

Lemma AssignTeams_length (gs : game.GameState) (shuffled : list nat) (coin : Z)
    (rnd : R) :
  length (game.Paddles (game.AssignTeams gs shuffled coin rnd))
  = length (game.Paddles gs).
Proof.
  rewrite <- !(length_fmap paddle.Team).
  unfold game.AssignTeams. destruct (_ =? 0); [reflexivity|]. cbn zeta.
  cbn [game.Paddles game.set_Ball]. rewrite !assignTeamPaddles_teams.
  unfold tagAll.
  assert (Hfold : forall t ptrs (ts : list protocol.Team),
            length (foldl (fun ts ptr => alter (fun _ => t) ptr ts) ts ptrs) = length ts).
  { intros t ptrs. induction ptrs as [|q ptrs IH]; intros ts; [reflexivity|].
    cbn [foldl]. now rewrite IH, length_alter. }
  now rewrite !Hfold.
Qed.

(** Every paddle of the state [AssignTeams] leaves was written by it. *)
Lemma AssignTeams_each (gs : game.GameState) (shuffled : list nat) (coin : Z) (rnd : R)
    (ptr : nat) (q : paddle.Paddle) :
  shuffled ≡ₚ seq 0 (length (game.Paddles gs)) ->
  game.Paddles (game.AssignTeams gs shuffled coin rnd) !! ptr = Some q ->
  let N := GoInt.len (game.Paddles gs) in
  let half := Z.quot N 2 in
  exists (k : nat) (p0 : paddle.Paddle),
    shuffled !! k = Some ptr /\ game.Paddles gs !! ptr = Some p0 /\
    q = (if Z.of_nat k <? half
         then assignedPaddle (game.Width gs) (game.Height gs) protocol.TeamLeft half
                (Z.of_nat k) p0
         else assignedPaddle (game.Width gs) (game.Height gs) protocol.TeamRight
                (N - half) (Z.of_nat k - half) p0).
Proof.
  intros Hperm Hq. cbn zeta.
  assert (Hlt : (ptr < length (game.Paddles gs))%nat).
  { rewrite <- (AssignTeams_length gs shuffled coin rnd). eapply lookup_lt_Some, Hq. }
  destruct (lookup_lt_is_Some_2 _ _ Hlt) as [p0 Hp0].
  assert (Hin : ptr ∈ shuffled) by (rewrite Hperm; apply elem_of_seq; lia).
  apply list_elem_of_lookup_1 in Hin as [k Hk].
  exists k, p0. split; [exact Hk|]. split; [exact Hp0|].
  pose proof (AssignTeams_at gs shuffled coin rnd k ptr p0 Hperm Hk Hp0) as H.
  cbn zeta in H. rewrite Hq in H. now injection H.
Qed.

Lemma shuffled_position_bound (gs : game.GameState) (shuffled : list nat) (k ptr : nat) :
  shuffled ≡ₚ seq 0 (length (game.Paddles gs)) ->
  shuffled !! k = Some ptr ->
  Z.of_nat k < GoInt.len (game.Paddles gs).
Proof.
  intros Hperm Hk. apply lookup_lt_Some in Hk.
  rewrite Hperm, length_seq in Hk. unfold GoInt.len. lia.
Qed.

Lemma half_bounds (n : Z) : 0 <= n -> 0 <= Z.quot n 2 <= n /\ (2 <= n -> 1 <= Z.quot n 2).
Proof.
  intros Hn. rewrite Z.quot_div_nonneg by lia.
  pose proof (Z.div_mod n 2 ltac:(lia)). pose proof (Z.mod_pos_bound n 2 ltac:(lia)).
  lia.
Qed.

Lemma CalculatePaddleHeight_bounds (n : Z) :
  1 <= n <= GoInt.max_int ->
  game.MinPaddleHeight <= game.CalculatePaddleHeight n <= game.BasePaddleHeight.
Proof.
  intros Hn. rewrite CalculatePaddleHeight_small by exact Hn.
  unfold game.MinPaddleHeight, game.BasePaddleHeight. lia.
Qed.

(** X18.  After [AssignTeams] every paddle is ready to play: it keeps
    its player and colour, sits centred in the court with its target on
    itself, knows the court height, and has the height computed from
    the size of its own team, between [MinPaddleHeight] and
    [BasePaddleHeight]. *)
Theorem AssignTeams_paddles_ready (gs : game.GameState) (shuffled : list nat)
    (coin : Z) (rnd : R) :
  shuffled ≡ₚ seq 0 (length (game.Paddles gs)) ->
  GoInt.len (game.Paddles gs) <= GoInt.max_int ->
  let gs' := game.AssignTeams gs shuffled coin rnd in
  let N := GoInt.len (game.Paddles gs) in
  paddle.ID <$> game.Paddles gs' = paddle.ID <$> game.Paddles gs /\
  paddle.Color <$> game.Paddles gs' = paddle.Color <$> game.Paddles gs /\
  Forall
    (fun q =>
       paddle.Y q = (GoFloat.of_int (game.Height gs) / 2)%R /\
       paddle.TargetY q = paddle.Y q /\
       paddle.CourtHeight q = game.Height gs /\
       paddle.Height q =
         game.CalculatePaddleHeight
           (if paddle.Team q =? protocol.TeamLeft then Z.quot N 2 else N - Z.quot N 2) /\
       game.MinPaddleHeight <= paddle.Height q <= game.BasePaddleHeight)
    (game.Paddles gs').
Proof.
  intros Hperm Hmax. cbn zeta.
  set (gs' := game.AssignTeams gs shuffled coin rnd).
  set (N := GoInt.len (game.Paddles gs)) in *.
  assert (HN : 0 <= N) by (unfold N, GoInt.len; lia).
  destruct (half_bounds N HN) as [Hhalf Hhalf2].
  assert (Hfield : forall (A : Type) (f : paddle.Paddle -> A),
            (forall w h t c i p0, f (assignedPaddle w h t c i p0) = f p0) ->
            f <$> game.Paddles gs' = f <$> game.Paddles gs).
  { intros A f Hf. apply list_eq. intros ptr. rewrite !list_lookup_fmap.
    destruct (game.Paddles gs' !! ptr) as [q|] eqn:Hq.
    - destruct (AssignTeams_each gs shuffled coin rnd ptr q Hperm Hq)
        as (k & p0 & _ & Hp0 & ->).
      rewrite Hp0. cbn. f_equal. now destruct (_ <? _).
    - apply lookup_ge_None in Hq. unfold gs' in Hq. rewrite AssignTeams_length in Hq.
      now rewrite (lookup_ge_None_2 _ _ Hq). }
  split; [now apply Hfield|]. split; [now apply Hfield|].
  apply Forall_lookup. intros ptr q Hq.
  destruct (AssignTeams_each gs shuffled coin rnd ptr q Hperm Hq)
    as (k & p0 & Hk & _ & ->).
  pose proof (shuffled_position_bound gs shuffled k ptr Hperm Hk) as Hkn. fold N in Hkn.
  fold N. destruct (Z.ltb_spec (Z.of_nat k) (Z.quot N 2)); cbn;
    (split; [reflexivity|]); (split; [reflexivity|]); (split; [reflexivity|]);
    (split; [reflexivity|]); apply CalculatePaddleHeight_bounds; lia.
Qed.

Lemma AssignTeams_paddles_ready_witness :
  paddle.ID <$> game.Paddles (game.AssignTeams four_players four_shuffle 0 0)
  = paddle.ID <$> game.Paddles four_players.
Proof.
  apply (AssignTeams_paddles_ready four_players four_shuffle 0 0).
  - apply (bool_decide_unpack _). vm_compute. exact I.
  - change (4 <= GoInt.max_int). unfold GoInt.max_int. lia.
Defined.

Lemma quot_bounds (a b : Z) : 0 < b -> - Z.abs a <= Z.quot a b <= Z.abs a.
Proof.
  intros Hb. destruct (Z.le_gt_cases 0 a) as [Ha|Ha].
  - rewrite Z.quot_div_nonneg by lia.
    pose proof (Z.div_pos a b Ha Hb).
    assert (a / b <= a) by (apply Z.div_le_upper_bound; nia). lia.
  - replace a with (- (- a)) at 2 3 by lia. rewrite Z.quot_opp_l by lia.
    rewrite Z.quot_div_nonneg by lia.
    pose proof (Z.div_pos (- a) b ltac:(lia) Hb).
    assert (- a / b <= - a) by (apply Z.div_le_upper_bound; nia). lia.
Qed.

Ltac no_wrap :=
  rewrite wrap64_in_range
    by (unfold GoInt.in_range, GoInt.min_int, GoInt.max_int; lia).

(** The column written for the [i]-th paddle of a team, without
    machine arithmetic, for courts and rosters that fit 31 bits. *)
Lemma assignedPaddle_Column (width height : Z) (team : protocol.Team) (count i : Z)
    (p0 : paddle.Paddle) :
  0 <= width <= 2 ^ 31 ->
  1 <= count <= 2 ^ 31 ->
  0 <= i < count ->
  let columnStart := if team =? protocol.TeamLeft then 1 else Z.quot (width * 3) 4 in
  let columnEnd := if team =? protocol.TeamLeft then Z.quot width 4 else width - 1 in
  paddle.Column (assignedPaddle width height team count i p0)
  = columnStart + (i + 1) * Z.max 1 (Z.quot (columnEnd - columnStart) (count + 1)).
Proof.
  intros Hw Hc Hi. cbn zeta. unfold assignedPaddle. cbn [paddle.Column].
  unfold GoInt.div, GoInt.mul, GoInt.sub, GoInt.add.
  change (2 ^ 31) with 2147483648 in *.
  pose proof (quot_bounds width 4 ltac:(lia)) as Hq4.
  pose proof (quot_bounds (width * 3) 4 ltac:(lia)) as Hq34.
  pose proof (Z.quot_pos width 4 ltac:(lia) ltac:(lia)) as Hp4.
  pose proof (Z.quot_pos (width * 3) 4 ltac:(lia) ltac:(lia)) as Hp34.
  rewrite (wrap64_in_range (width * 3))
    by (unfold GoInt.in_range, GoInt.min_int, GoInt.max_int; lia).
  rewrite (wrap64_in_range (Z.quot width 4))
    by (unfold GoInt.in_range, GoInt.min_int, GoInt.max_int; lia).
  rewrite (wrap64_in_range (Z.quot (width * 3) 4))
    by (unfold GoInt.in_range, GoInt.min_int, GoInt.max_int; lia).
  rewrite (wrap64_in_range (width - 1))
    by (unfold GoInt.in_range, GoInt.min_int, GoInt.max_int; lia).
  set (columnStart := if team =? protocol.TeamLeft then 1 else Z.quot (width * 3) 4).
  set (columnEnd := if team =? protocol.TeamLeft then Z.quot width 4 else width - 1).
  assert (Hs : 0 <= columnStart <= 3 * 2147483648)
    by (unfold columnStart; destruct (team =? _); lia).
  assert (He : -1 <= columnEnd <= 2147483648)
    by (unfold columnEnd; destruct (team =? _); lia).
  assert (Hd : -1 <= columnEnd - columnStart <= 536870912).
  { unfold columnStart, columnEnd. destruct (team =? _).
    - rewrite Z.quot_div_nonneg in * by lia.
      pose proof (Z.div_mod width 4 ltac:(lia)).
      pose proof (Z.mod_pos_bound width 4 ltac:(lia)). lia.
    - rewrite Z.quot_div_nonneg in * by lia.
      pose proof (Z.div_mod (width * 3) 4 ltac:(lia)).
      pose proof (Z.mod_pos_bound (width * 3) 4 ltac:(lia)). lia. }
  rewrite (wrap64_in_range (columnEnd - columnStart))
    by (unfold GoInt.in_range, GoInt.min_int, GoInt.max_int; lia).
  pose proof (quot_bounds (columnEnd - columnStart) (count + 1) ltac:(lia)) as Hqr.
  rewrite (wrap64_in_range (Z.quot (columnEnd - columnStart) (count + 1)))
    by (unfold GoInt.in_range, GoInt.min_int, GoInt.max_int; lia).
  set (sp := Z.quot (columnEnd - columnStart) (count + 1)) in *.
  assert (Hsp : (if sp <? 1 then 1 else sp) = Z.max 1 sp)
    by (destruct (Z.ltb_spec sp 1); lia).
  rewrite Hsp.
  assert (Hm : 1 <= Z.max 1 sp <= 536870912) by lia.
  assert (Hprod : 0 <= (i + 1) * Z.max 1 sp <= 2147483648 * 536870912) by nia.
  rewrite (wrap64_in_range ((i + 1) * Z.max 1 sp))
    by (unfold GoInt.in_range, GoInt.min_int, GoInt.max_int; lia).
  rewrite wrap64_in_range
    by (unfold GoInt.in_range, GoInt.min_int, GoInt.max_int; lia).
  reflexivity.
Qed.

(** The four-player example after assignment, paddle by paddle. *)
Lemma four_players_assigned :
  exists q0 q1 q2 q3,
    game.Paddles (game.AssignTeams four_players four_shuffle 0 0) = [q0; q1; q2; q3] /\
    paddle.Team q0 = protocol.TeamLeft /\ paddle.Team q1 = protocol.TeamRight /\
    paddle.Team q2 = protocol.TeamLeft /\ paddle.Team q3 = protocol.TeamRight.
Proof.
  pose proof AssignTeams_four_players as H.
  destruct (game.Paddles (game.AssignTeams four_players four_shuffle 0 0))
    as [|q0 [|q1 [|q2 [|q3 [|q4 l]]]]]; try discriminate H.
  cbn [map] in H. injection H as H0 _ _ _ H1 _ _ _ H2 _ _ _ H3 _ _ _.
  exists q0, q1, q2, q3. auto.
Qed.

(** X19.  Team mates never share a column: in courts and rosters that
    fit 31 bits, of two paddles of the same team the one that comes
    later in the shuffled order stands in a strictly greater column. *)
Theorem AssignTeams_columns_ordered (gs : game.GameState) (shuffled : list nat)
    (coin : Z) (rnd : R) (k1 k2 ptr1 ptr2 : nat) (q1 q2 : paddle.Paddle) :
  shuffled ≡ₚ seq 0 (length (game.Paddles gs)) ->
  0 <= game.Width gs <= 2 ^ 31 ->
  GoInt.len (game.Paddles gs) <= 2 ^ 31 ->
  shuffled !! k1 = Some ptr1 ->
  shuffled !! k2 = Some ptr2 ->
  (k1 < k2)%nat ->
  game.Paddles (game.AssignTeams gs shuffled coin rnd) !! ptr1 = Some q1 ->
  game.Paddles (game.AssignTeams gs shuffled coin rnd) !! ptr2 = Some q2 ->
  paddle.Team q1 = paddle.Team q2 ->
  paddle.Column q1 < paddle.Column q2.
Proof.
  intros Hperm Hw HN Hk1 Hk2 Hlt Hq1 Hq2 Hteam.
  assert (Hlen : length shuffled = length (game.Paddles gs))
    by (rewrite Hperm; apply length_seq).
  assert (Hp : forall k ptr, shuffled !! k = Some ptr ->
                 exists p0, game.Paddles gs !! ptr = Some p0).
  { intros k ptr Hk. apply lookup_lt_is_Some_2.
    assert (Hin : ptr ∈ shuffled) by (eapply list_elem_of_lookup_2, Hk).
    rewrite Hperm in Hin. apply elem_of_seq in Hin. lia. }
  destruct (Hp _ _ Hk1) as [p1 Hp1]. destruct (Hp _ _ Hk2) as [p2 Hp2].
  pose proof (AssignTeams_at gs shuffled coin rnd k1 ptr1 p1 Hperm Hk1 Hp1) as H1.
  pose proof (AssignTeams_at gs shuffled coin rnd k2 ptr2 p2 Hperm Hk2 Hp2) as H2.
  cbn zeta in H1, H2. rewrite Hq1 in H1. rewrite Hq2 in H2.
  injection H1 as ->. injection H2 as ->.
  pose proof (shuffled_position_bound gs shuffled k2 ptr2 Hperm Hk2) as Hk2n.
  set (N := GoInt.len (game.Paddles gs)) in *.
  assert (HN0 : 0 <= N) by (unfold N, GoInt.len; lia).
  destruct (half_bounds N HN0) as [Hhalf _].
  change (2 ^ 31) with 2147483648 in *.
  destruct (Z.ltb_spec (Z.of_nat k1) (Z.quot N 2)) as [Hl1|Hl1],
    (Z.ltb_spec (Z.of_nat k2) (Z.quot N 2)) as [Hl2|Hl2];
    try (cbn in Hteam; discriminate Hteam); try lia.
  - rewrite !assignedPaddle_Column by (change (2 ^ 31) with 2147483648; lia).
    cbn zeta. nia.
  - rewrite !assignedPaddle_Column by (change (2 ^ 31) with 2147483648; lia).
    cbn zeta. nia.
Qed.

Lemma AssignTeams_columns_ordered_witness :
  exists q1 q2,
    game.Paddles (game.AssignTeams four_players four_shuffle 0 0) !! 2%nat = Some q1 /\
    game.Paddles (game.AssignTeams four_players four_shuffle 0 0) !! 0%nat = Some q2 /\
    paddle.Column q1 < paddle.Column q2.
Proof.
  destruct four_players_assigned as (q0 & q1 & q2 & q3 & E & T0 & _ & T2 & _).
  exists q2, q0. rewrite E. split; [reflexivity|]. split; [reflexivity|].
  apply (AssignTeams_columns_ordered four_players four_shuffle 0 0 0 1 2 0 q2 q0).
  - apply (bool_decide_unpack _). vm_compute. exact I.
  - change (game.Width four_players) with 80. lia.
  - change (GoInt.len (game.Paddles four_players)) with 4. lia.
  - reflexivity.
  - reflexivity.
  - lia.
  - now rewrite E.
  - now rewrite E.
  - now rewrite T0, T2.
Defined.

(** X20.  No paddle touches the goal line or the edge of its band: when
    the band of a team has room for its paddles (team size + 1 at most
    the band width), every left paddle stands strictly between column 1
    and column [Width / 4], every right paddle strictly between column
    [Width * 3 / 4] and column [Width - 1]. *)
Theorem AssignTeams_columns_in_band (gs : game.GameState) (shuffled : list nat)
    (coin : Z) (rnd : R) (ptr : nat) (q : paddle.Paddle) :
  shuffled ≡ₚ seq 0 (length (game.Paddles gs)) ->
  0 <= game.Width gs <= 2 ^ 31 ->
  GoInt.len (game.Paddles gs) <= 2 ^ 31 ->
  game.Paddles (game.AssignTeams gs shuffled coin rnd) !! ptr = Some q ->
  let N := GoInt.len (game.Paddles gs) in
  let W := game.Width gs in
  (paddle.Team q = protocol.TeamLeft ->
   Z.quot N 2 + 1 <= Z.quot W 4 - 1 ->
   1 < paddle.Column q < Z.quot W 4) /\
  (paddle.Team q = protocol.TeamRight ->
   N - Z.quot N 2 + 1 <= W - 1 - Z.quot (W * 3) 4 ->
   Z.quot (W * 3) 4 < paddle.Column q < W - 1).
Proof.
  intros Hperm Hw HN Hq. cbn zeta.
  destruct (AssignTeams_each gs shuffled coin rnd ptr q Hperm Hq)
    as (k & p0 & Hk & _ & ->).
  pose proof (shuffled_position_bound gs shuffled k ptr Hperm Hk) as Hkn.
  set (N := GoInt.len (game.Paddles gs)) in *.
  set (W := game.Width gs) in *.
  assert (HN0 : 0 <= N) by (unfold N, GoInt.len; lia).
  destruct (half_bounds N HN0) as [Hhalf _].
  change (2 ^ 31) with 2147483648 in *.
  assert (Hband : forall a c i, 0 <= i < c -> c + 1 <= a ->
            let sp := Z.max 1 (Z.quot a (c + 1)) in
            0 < (i + 1) * sp < a).
  { intros a c i Hi Hc. cbn zeta.
    rewrite Z.quot_div_nonneg by lia.
    assert (1 <= a / (c + 1)) by (apply Z.div_le_lower_bound; lia).
    pose proof (Z.mul_div_le a (c + 1) ltac:(lia)).
    rewrite Z.max_r by lia. nia. }
  destruct (Z.ltb_spec (Z.of_nat k) (Z.quot N 2)) as [Hl|Hl].
  - split; [|cbn; discriminate]. intros _ Hroom.
    rewrite assignedPaddle_Column by (change (2 ^ 31) with 2147483648; lia).
    cbn zeta. change (protocol.TeamLeft =? protocol.TeamLeft) with true. cbn iota.
    pose proof (Hband (Z.quot W 4 - 1) (Z.quot N 2) (Z.of_nat k) ltac:(lia) Hroom) as H.
    cbn zeta in H. lia.
  - split; [cbn; discriminate|]. intros _ Hroom.
    rewrite assignedPaddle_Column by (change (2 ^ 31) with 2147483648; lia).
    cbn zeta. change (protocol.TeamRight =? protocol.TeamLeft) with false. cbn iota.
    pose proof (Hband (W - 1 - Z.quot (W * 3) 4) (N - Z.quot N 2)
                  (Z.of_nat k - Z.quot N 2) ltac:(lia) Hroom) as H.
    cbn zeta in H. lia.
Qed.

Lemma AssignTeams_columns_in_band_witness :
  exists q,
    game.Paddles (game.AssignTeams four_players four_shuffle 0 0) !! 2%nat = Some q /\
    1 < paddle.Column q < 20.
Proof.
  destruct four_players_assigned as (q0 & q1 & q2 & q3 & E & _ & _ & T2 & _).
  exists q2. rewrite E. split; [reflexivity|].
  assert (Hq : game.Paddles (game.AssignTeams four_players four_shuffle 0 0) !! 2%nat
               = Some q2) by now rewrite E.
  refine (proj1 (AssignTeams_columns_in_band four_players four_shuffle 0 0 2 q2
                   _ _ _ Hq) T2 _).
  - apply (bool_decide_unpack _). vm_compute. exact I.
  - change (game.Width four_players) with 80. lia.
  - change (GoInt.len (game.Paddles four_players)) with 4. lia.
  - change (GoInt.len (game.Paddles four_players)) with 4.
    change (game.Width four_players) with 80. vm_compute. discriminate.
Defined.

End Assignment.

(** ** Paddles stay inside the court for the whole match *)

Section MatchInCourt.

Lemma withPlayers_Height_length (w h ptw : Z) (roster : list (Z * string)) :
  game.Height (withPlayers w h ptw roster) = h /\
  length (game.Paddles (withPlayers w h ptw roster)) = length roster.
Proof.
  unfold withPlayers. induction roster as [|pl roster IH] using rev_ind.
  - split; reflexivity.
  - rewrite foldl_app. cbn [foldl]. set (prev := foldl _ _ roster) in *.
    destruct IH as [IHh IHl]. unfold game.AddPlayer.
    cbn [fst game.Height game.Paddles game.set_Players game.set_Paddles].
    rewrite !length_app, IHl. split; [exact IHh | reflexivity].
Qed.

Lemma CheckScore_Height (gs : game.GameState) :
  game.Height (game.CheckScore gs) = game.Height gs.
Proof.
  unfold game.CheckScore; cbn zeta;
    repeat match goal with
    | |- context [if ?c then _ else _] => destruct c
    end; reflexivity.
Qed.

Lemma Update_Height (gs : game.GameState) :
  game.Height (game.Update gs) = game.Height gs.
Proof.
  unfold game.Update. cbn zeta.
  cbn [game.Paused game.set_Tick game.PauseTicksLeft game.set_PauseTicksLeft].
  destruct (game.Paused gs).
  - now destruct (_ <=? 0).
  - cbn [game.WaitingForServe game.set_Paddles game.set_Tick].
    destruct (game.WaitingForServe gs); [reflexivity|].
    now rewrite CheckScore_Height, checkPaddleCollisions_frame, wallBounce_frame.
Qed.

Lemma ProcessInput_Height (gs : game.GameState) (playerID : Z) (dir : protocol.Direction) :
  game.Height (game.ProcessInput gs playerID dir) = game.Height gs.
Proof. unfold game.ProcessInput. now destruct (game.GetPaddleRef gs playerID). Qed.

Lemma Serve_Height_Paddles (gs : game.GameState) (playerID : Z) (rnd : R) :
  game.Height (game.Serve gs playerID rnd).2 = game.Height gs /\
  game.Paddles (game.Serve gs playerID rnd).2 = game.Paddles gs.
Proof.
  unfold game.Serve. destruct (negb _); [easy|].
  destruct (game.GetPaddle gs playerID); [|easy]. now destruct (negb _).
Qed.

Lemma assignedPaddle_fits (width height : Z) (team : protocol.Team) (count i : Z)
    (p0 : paddle.Paddle) :
  1 <= count <= GoInt.max_int ->
  game.BasePaddleHeight <= height ->
  fits (assignedPaddle width height team count i p0).
Proof.
  intros Hc Hh. pose proof (CalculatePaddleHeight_bounds count Hc) as Hb.
  unfold game.MinPaddleHeight, game.BasePaddleHeight in *.
  unfold fits, in_court, assignedPaddle, GoFloat.of_int.
  cbn [paddle.Height paddle.CourtHeight paddle.Y].
  split; [lia|].
  assert (IZR (game.CalculatePaddleHeight count) <= IZR height)%R by (apply IZR_le; lia).
  assert (0 <= IZR (game.CalculatePaddleHeight count))%R by (apply IZR_le; lia).
  lra.
Qed.

(** X21.  Throughout a match in a court at least as high as the
    tallest paddle ([BasePaddleHeight], 5 rows), every paddle fits the
    court and stays inside it: from [AssignTeams] on and under any
    sequence of [Update], [ProcessInput] and [Serve], each paddle has
    [0 < Height <= CourtHeight] and its centre lies in
    [[Height/2, CourtHeight - Height/2]]. *)
Theorem paddles_inside_court_all_match (gs : game.GameState) :
  reachable gs ->
  game.BasePaddleHeight <= game.Height gs ->
  Forall fits (game.Paddles gs).
Proof.
  induction 1 as [w h ptw roster shuffled coin rnd Hlen Hperm Hcoin Hrnd
                 | gs Hr IH | gs id dir Hr IH | gs id rnd Hrnd Hr IH]; intros Hh.
  - destruct (withPlayers_Height_length w h ptw roster) as [HH HL].
    rewrite <- HL in Hperm.
    rewrite (proj2 (AssignTeams_Width_Height _ shuffled coin rnd)), HH in Hh.
    apply Forall_lookup. intros ptr q Hq.
    destruct (AssignTeams_each _ shuffled coin rnd ptr q Hperm Hq)
      as (k & p0 & Hk & _ & ->).
    pose proof (shuffled_position_bound _ shuffled k ptr Hperm Hk) as Hkn.
    set (N := GoInt.len (game.Paddles (withPlayers w h ptw roster))) in *.
    assert (HN : 0 <= N <= GoInt.max_int) by (unfold N, GoInt.len; rewrite HL; lia).
    destruct (half_bounds N ltac:(lia)) as [Hhalf _].
    rewrite HH.
    destruct (Z.ltb_spec (Z.of_nat k) (Z.quot N 2));
      apply assignedPaddle_fits; lia.
  - rewrite Update_Height in Hh.
    apply (match_paddles_stay_in_court gs 0 protocol.DirNone (IH Hh)).
  - rewrite ProcessInput_Height in Hh.
    apply (match_paddles_stay_in_court gs id dir (IH Hh)).
  - destruct (Serve_Height_Paddles gs id rnd) as [EH EP].
    rewrite EH in Hh. rewrite EP. exact (IH Hh).
Qed.

Lemma paddles_inside_court_all_match_witness :
  Forall fits (game.Paddles (game.Update duel_start)).
Proof.
  apply paddles_inside_court_all_match.
  - apply reach_Update. unfold duel_start. apply reach_start.
    + cbn. unfold GoInt.max_int. lia.
    + apply (bool_decide_unpack _). vm_compute. exact I.
    + lia.
    + lra.
  - rewrite Update_Height. unfold duel_start.
    rewrite (proj2 (AssignTeams_Width_Height _ _ _ _)).
    rewrite (proj1 (withPlayers_Height_length _ _ _ _)).
    unfold game.BasePaddleHeight. lia.
Defined.

End MatchInCourt.

(** * Further properties of the server *)

Section ServerStates.

(** Fields that [assignTeamPaddles] copies survive [AssignTeams]. *)
Lemma AssignTeams_fmap_kept {A : Type} (f : paddle.Paddle -> A) (gs : game.GameState)
    (shuffled : list nat) (coin : Z) (rnd : R) :
  (forall w h t c i p0, f (assignedPaddle w h t c i p0) = f p0) ->
  shuffled ≡ₚ seq 0 (length (game.Paddles gs)) ->
  f <$> game.Paddles (game.AssignTeams gs shuffled coin rnd) = f <$> game.Paddles gs.
Proof.
  intros Hf Hperm. apply list_eq. intros ptr. rewrite !list_lookup_fmap.
  destruct (game.Paddles (game.AssignTeams gs shuffled coin rnd) !! ptr) as [q|] eqn:Hq.
  - destruct (AssignTeams_each gs shuffled coin rnd ptr q Hperm Hq)
      as (k & p0 & _ & Hp0 & ->).
    rewrite Hp0. cbn. f_equal. now destruct (_ <? _).
  - apply lookup_ge_None in Hq. rewrite AssignTeams_length in Hq.
    now rewrite (lookup_ge_None_2 _ _ Hq).
Qed.

(** Team sizes after [AssignTeams]. *)
Lemma AssignTeams_counts (gs : game.GameState) (shuffled : list nat) (coin : Z) (rnd : R) :
  shuffled ≡ₚ seq 0 (length (game.Paddles gs)) ->
  game.Paddles gs <> [] ->
  let N := GoInt.len (game.Paddles gs) in
  let gs' := game.AssignTeams gs shuffled coin rnd in
  game.countPlayersOnSide gs' protocol.TeamLeft = Z.quot N 2 /\
  game.countPlayersOnSide gs' protocol.TeamRight = N - Z.quot N 2.
Proof.
  intros Hperm Hne. cbn zeta.
  pose proof (AssignTeams_teams gs shuffled coin rnd Hperm Hne) as Ht.
  assert (Hlen : length shuffled = length (game.Paddles gs))
    by (rewrite Hperm; apply length_seq).
  unfold GoInt.len in *. rewrite Hlen in Ht.
  set (n := length (game.Paddles gs)) in *.
  destruct (half_bounds (Z.of_nat n) ltac:(lia)) as [Hh _].
  unfold game.countPlayersOnSide. rewrite !countTeam_countOf, Ht.
  rewrite !(countOf_split _ _ _ n shuffled) by (easy || lia).
  cbn. split; lia.
Qed.

Lemma Update_IDs (gs : game.GameState) :
  paddle.ID <$> game.Paddles (game.Update gs) = paddle.ID <$> game.Paddles gs.
Proof.
  destruct (Update_Paddles gs) as [-> | ->]; [reflexivity|].
  change (map paddle.Update (game.Paddles gs)) with (paddle.Update <$> game.Paddles gs).
  now rewrite <- list_fmap_compose.
Qed.

Lemma ProcessInput_IDs (gs : game.GameState) (playerID : Z) (dir : protocol.Direction) :
  paddle.ID <$> game.Paddles (game.ProcessInput gs playerID dir)
  = paddle.ID <$> game.Paddles gs.
Proof.
  unfold game.ProcessInput. destruct (game.GetPaddleRef gs playerID) as [i|]; [|easy].
  cbn [game.Paddles game.set_Paddles].
  rewrite (list_fmap_alter paddle.ID _ (fun x => x)).
  - apply list_alter_id. reflexivity.
  - apply Forall_forall. intros p _. unfold paddle.ProcessInput. cbn zeta.
    destruct (dir =? protocol.DirUp); [reflexivity|].
    now destruct (dir =? protocol.DirDown).
Qed.

Lemma AddPlayers_IDs (gs : game.GameState) (cs : list (Z * server.Client)) :
  paddle.ID <$>
    game.Paddles
      (foldl (fun gs (kc : Z * server.Client) =>
                (game.AddPlayer gs (server.ID kc.2) (server.Name kc.2)).1) gs cs)
  = (paddle.ID <$> game.Paddles gs) ++ ((fun kc : Z * server.Client => server.ID kc.2) <$> cs).
Proof.
  revert gs. induction cs as [|kc cs IH]; intros gs; cbn [foldl fmap list_fmap].
  - now rewrite app_nil_r.
  - rewrite IH. unfold game.AddPlayer.
    cbn [fst game.Paddles game.set_Paddles game.set_Players].
    rewrite fmap_app, <- app_assoc. reflexivity.
Qed.

Lemma range_clients_IDs (m : gmap Z server.Client) (order : list Z) :
  (forall k c, m !! k = Some c -> server.ID c = k) ->
  server.range_order m order ->
  (fun kc : Z * server.Client => server.ID kc.2) <$> server.range_clients m order = order.
Proof.
  intros Hid Ho.
  assert (Hall : forall k, k ∈ order -> exists c, m !! k = Some c).
  { intros k Hk. unfold server.range_order in Ho. rewrite Ho in Hk.
    apply list_elem_of_fmap in Hk as ([k' c] & -> & Hkc).
    apply elem_of_map_to_list in Hkc. now exists c. }
  clear Ho. unfold server.range_clients.
  induction order as [|k order IH]; [reflexivity|].
  cbn [omap list_omap]. destruct (Hall k ltac:(left)) as [c Hc]. rewrite Hc.
  cbn [fmap list_fmap]. cbn. rewrite (Hid k c Hc). f_equal.
  apply IH. intros k' Hk'. apply Hall. now right.
Qed.

Lemma range_order_length (m : gmap Z server.Client) (order : list Z) :
  server.range_order m order -> length order = size m.
Proof.
  unfold server.range_order. intros ->.
  now rewrite length_fmap, length_map_to_list.
Qed.

Lemma server_inv_StartGame (s : server.Server) (order1 order2 : list Z)
    (shuffled : list nat) (coin : Z) (rnd : R) :
  server_inv s ->
  server.range_order (server.clients s) order2 ->
  shuffled ≡ₚ seq 0 (size (server.clients s)) ->
  server_inv (server.StartGame s order1 order2 shuffled coin rnd).
Proof.
  intros [Hros Hph] Ho2 Hperm. unfold server.StartGame.
  destruct (_ <? 2); [now split|].
  destruct (server.minTermSize _ _ _) as [minW minH].
  split; [exact Hros|]. cbn [server.gameState server.inLobby server.inRematch server.clients].
  split; [reflexivity|]. split; [reflexivity|].
  set (gs0 := foldl _ _ _).
  assert (Hids : paddle.ID <$> game.Paddles gs0 = order2).
  { unfold gs0. rewrite AddPlayers_IDs. cbn [game.Paddles game.NewGameState].
    cbn [fmap list_fmap app].
    apply range_clients_IDs; [|exact Ho2]. intros k c Hc. apply (Hros k c Hc). }
  rewrite AssignTeams_fmap_kept.
  - rewrite Hids. exact Ho2.
  - reflexivity.
  - rewrite <- (length_fmap paddle.ID), Hids, (range_order_length _ _ Ho2). exact Hperm.
Qed.

Lemma server_inv_handleConnection (s : server.Server) (joinReq : server.JoinRequest) :
  server_inv s -> server_inv (server.handleConnection s joinReq).1.
Proof.
  intros [Hros Hph]. unfold server.handleConnection.
  destruct (negb (server.inLobby s) && negb (server.inRematch s)) eqn:Hbusy;
    [now split|].
  cbn [server.inLobby server.inRematch server.clients server.nextID server.gameState
       server.minWidth server.minHeight server.cfg_Port server.cfg_PointsToWin
       server.rematchReady].
  destruct (Z.ltb_spec (server.TerminalWidth joinReq) server.MinTermWidth) as [Hw|Hw];
    [now split|].
  destruct (Z.ltb_spec (server.TerminalHeight joinReq) server.MinTermHeight) as [Hh|Hh];
    [now split|].
  cbn [orb fst]. split.
  - cbn [server.clients]. intros k c Hk.
    destruct (decide (server.nextID s = k)) as [<-|Hne].
    + rewrite lookup_insert_eq in Hk. injection Hk as <-. cbn. auto.
    + rewrite lookup_insert_ne in Hk by exact Hne. now apply Hros.
  - cbn [server.gameState server.inLobby server.inRematch server.clients].
    destruct (server.gameState s) as [gs|]; [|exact Hph].
    destruct Hph as (Hl & Hr & _). rewrite Hl, Hr in Hbusy. discriminate.
Qed.

Lemma server_inv_handleDisconnect (s : server.Server) (clientID : Z) :
  server_inv s -> server_inv (server.handleDisconnect s clientID).1.
Proof.
  intros [Hros Hph]. unfold server.handleDisconnect.
  destruct (server.clients s !! clientID) as [c|] eqn:Hc; [|now split].
  cbn [server.gameState server.inLobby server.inRematch server.clients].
  assert (Hros' : forall k c0, delete clientID (server.clients s) !! k = Some c0 ->
            server.ID c0 = k /\ server.PlayerID c0 = k /\
            server.MinTermWidth <= server.Width c0 /\
            server.MinTermHeight <= server.Height c0).
  { intros k c0 Hk. apply lookup_delete_Some in Hk as [_ Hk]. now apply Hros. }
  destruct (server.gameState s) as [gs|].
  - destruct Hph as (-> & -> & _). cbn [negb andb fst]. split; [exact Hros'|].
    cbn. now left.
  - destruct Hph as [[-> ->] | [-> ->]]; cbn [fst]; (split; [exact Hros'|]); cbn; auto.
Qed.

Lemma server_inv_handleMessage (s : server.Server) (client : server.Client)
    (msg : server.Message) (rnd : R) :
  server_inv s -> server_inv (server.handleMessage s client msg rnd).
Proof.
  intros [Hros Hph]. unfold server.handleMessage.
  destruct msg as [dir| |]; [| |now split];
    (destruct (server.gameState s) as [gs|] eqn:Hgs; [|split; [exact Hros | now rewrite Hgs]]);
    (split; [exact Hros|]); cbn; destruct Hph as (Hl & Hr & Hp);
    (split; [exact Hl|]); (split; [exact Hr|]).
  - now rewrite ProcessInput_IDs.
  - now rewrite (proj2 (Serve_Height_Paddles gs _ rnd)).
Qed.

Lemma server_inv_gameTick (s : server.Server) :
  server_inv s -> server_inv (server.gameTick s).1.
Proof.
  intros [Hros Hph]. unfold server.gameTick.
  destruct (server.gameState s) as [gs|] eqn:Hgs;
    [|cbn [fst]; split; [exact Hros | now rewrite Hgs]].
  split; [exact Hros|]. cbn. destruct Hph as (Hl & Hr & Hp).
  split; [exact Hl|]. split; [exact Hr|]. now rewrite Update_IDs.
Qed.

Lemma server_reachable_inv (s : server.Server) : server_reachable s -> server_inv s.
Proof.
  induction 1 as [port ptw | s req _ IH | s id _ IH | s o1 o2 sh coin rnd _ IH _ Ho2 Hsh
                 | s c msg rnd _ IH | s _ IH | s _ IH | s id _ IH].
  - split; [|cbn; now left].
    intros k c Hk. cbn [server.clients server.NewServer] in Hk.
    now rewrite lookup_empty in Hk.
  - now apply server_inv_handleConnection.
  - now apply server_inv_handleDisconnect.
  - now apply server_inv_StartGame.
  - now apply server_inv_handleMessage.
  - now apply server_inv_gameTick.
  - destruct IH as [Hros _]. split; [exact Hros | cbn; now right].
  - destruct IH as [Hros Hph]. split; [exact Hros | exact Hph].
Qed.

Lemma lobby_80x24_reachable : server_reachable lobby_80x24.
Proof. unfold lobby_80x24. do 2 apply sr_join. apply sr_new. Qed.

Lemma lobby_80x24_shuffle : [1; 0]%nat ≡ₚ seq 0 (size (server.clients lobby_80x24)).
Proof.
  rewrite (proj2 (proj2 lobby_80x24_clients)).
  apply (bool_decide_unpack _). vm_compute. exact I.
Qed.

Lemma match_80x24_reachable : server_reachable match_80x24.
Proof.
  unfold match_80x24. apply sr_start.
  - apply lobby_80x24_reachable.
  - apply lobby_80x24_orders.
  - apply lobby_80x24_orders.
  - apply lobby_80x24_shuffle.
Qed.



(** X23.  The roster holds admitted clients under their own IDs: in
    every state of the server, the client stored under key [k] has
    [ID] and [PlayerID] equal to [k] and a terminal of at least
    [MinTermWidth] by [MinTermHeight]. *)
Theorem roster_keyed_and_admitted (s : server.Server) (k : Z) (c : server.Client) :
  server_reachable s ->
  server.clients s !! k = Some c ->
  server.ID c = k /\ server.PlayerID c = k /\
  server.MinTermWidth <= server.Width c /\ server.MinTermHeight <= server.Height c.
Proof. intros Hr. apply (proj1 (server_reachable_inv s Hr)). Qed.

Lemma roster_keyed_and_admitted_witness :
  server.ID (server.mkClient 2 "bob" 80 24 2) = 2 /\
  server.MinTermWidth <= server.Width (server.mkClient 2 "bob" 80 24 2).
Proof.
  destruct (roster_keyed_and_admitted match_80x24 2 (server.mkClient 2 "bob" 80 24 2))
    as (Hid & _ & Hw & _).
  - apply match_80x24_reachable.
  - apply (proj1 (proj2 lobby_80x24_clients)).
  - split; [exact Hid | exact Hw].
Defined.







Lemma assignTeamPaddles_frame (gs : game.GameState) (ptrs : list nat)
    (team : protocol.Team) (height : Z) :
  game.assignTeamPaddles gs ptrs team height
  = game.set_Paddles gs (game.Paddles (game.assignTeamPaddles gs ptrs team height)).
Proof. unfold game.assignTeamPaddles. destruct (_ =? 0); now destruct gs. Qed.

(** [AssignTeams] writes paddles and ball only. *)
Lemma AssignTeams_frame (gs : game.GameState) (shuffled : list nat) (coin : Z) (rnd : R) :
  let gs' := game.AssignTeams gs shuffled coin rnd in
  gs' = game.set_Ball (game.set_Paddles gs (game.Paddles gs')) (game.Ball gs').
Proof.
  cbn zeta. unfold game.AssignTeams. destruct (_ =? 0); [now destruct gs|]. cbn zeta.
  rewrite assignTeamPaddles_frame.
  rewrite (assignTeamPaddles_frame gs). now destruct gs.
Qed.

(** Adding players writes paddles and players only. *)
Lemma AddPlayers_frame (gs : game.GameState) (cs : list (Z * server.Client)) :
  let gs' :=
    foldl (fun gs (kc : Z * server.Client) =>
             (game.AddPlayer gs (server.ID kc.2) (server.Name kc.2)).1) gs cs in
  gs' = game.set_Players (game.set_Paddles gs (game.Paddles gs')) (game.Players gs').
Proof.
  cbn zeta. revert gs. induction cs as [|kc cs IH]; intros gs; cbn [foldl];
    [now destruct gs|].
  rewrite IH at 1. now destruct gs.
Qed.


Lemma range_clients_length (m : gmap Z server.Client) (order : list Z) :
  server.range_order m order -> length (server.range_clients m order) = size m.
Proof.
  intros Ho. rewrite <- (range_order_length m order Ho).
  assert (Hall : forall k, k ∈ order -> exists c, m !! k = Some c).
  { intros k Hk. unfold server.range_order in Ho. rewrite Ho in Hk.
    apply list_elem_of_fmap in Hk as ([k' c] & -> & Hkc).
    apply elem_of_map_to_list in Hkc. now exists c. }
  clear Ho. unfold server.range_clients.
  induction order as [|k order IH]; [reflexivity|].
  cbn [omap list_omap]. destruct (Hall k ltac:(left)) as [c Hc]. rewrite Hc.
  cbn [length]. f_equal. apply IH. intros k' Hk'. apply Hall. now right.
Qed.

(** X27.  [StartGame] needs two clients and then splits the roster
    evenly: with fewer than two clients it does nothing; otherwise it
    leaves lobby and rematch, keeps the roster, and creates a fresh
    match (0 : 0, not paused, the configured target) in which the left
    team has [n / 2] and the right team [n - n / 2] of the [n]
    clients. *)
Theorem StartGame_splits_roster (s : server.Server) (order1 order2 : list Z)
    (shuffled : list nat) (coin : Z) (rnd : R) :
  server.range_order (server.clients s) order2 ->
  shuffled ≡ₚ seq 0 (size (server.clients s)) ->
  let n := Z.of_nat (size (server.clients s)) in
  let s' := server.StartGame s order1 order2 shuffled coin rnd in
  (n < 2 -> s' = s) /\
  (2 <= n ->
   exists gs,
     server.gameState s' = Some gs /\
     server.inLobby s' = false /\ server.inRematch s' = false /\
     server.clients s' = server.clients s /\
     game.countPlayersOnSide gs protocol.TeamLeft = Z.quot n 2 /\
     game.countPlayersOnSide gs protocol.TeamRight = n - Z.quot n 2 /\
     game.LeftScore gs = 0 /\ game.RightScore gs = 0 /\
     game.PointsToWin gs = server.cfg_PointsToWin s /\
     game.Paused gs = false /\ game.WaitingForServe gs = false).
Proof.
  intros Ho2 Hperm. cbn zeta. unfold server.StartGame.
  destruct (Z.ltb_spec (Z.of_nat (size (server.clients s))) 2) as [Hlt|Hge];
    [split; [reflexivity | lia]|].
  split; [lia|]. intros _.
  destruct (server.minTermSize _ _ _) as [minW minH].
  cbn [server.gameState server.inLobby server.inRematch server.clients].
  eexists. split; [reflexivity|]. split; [reflexivity|]. split; [reflexivity|].
  split; [reflexivity|].
  set (gs0 := foldl _ _ _).
  assert (Hlen : length (game.Paddles gs0) = size (server.clients s)).
  { rewrite <- (length_fmap paddle.ID). unfold gs0. rewrite AddPlayers_IDs.
    cbn [game.Paddles game.NewGameState fmap list_fmap app].
    rewrite length_fmap. now apply range_clients_length. }
  assert (Hne : game.Paddles gs0 <> []).
  { intros E. rewrite E in Hlen. cbn in Hlen. lia. }
  rewrite <- Hlen in Hperm.
  destruct (AssignTeams_counts gs0 shuffled coin rnd Hperm Hne) as [Hl Hr].
  unfold GoInt.len in Hl, Hr. rewrite Hlen in Hl, Hr.
  split; [exact Hl|]. split; [exact Hr|].
  rewrite (AssignTeams_frame gs0 shuffled coin rnd).
  cbn [game.LeftScore game.RightScore game.PointsToWin game.Paused game.WaitingForServe
       game.set_Ball game.set_Paddles].
  unfold gs0. rewrite AddPlayers_frame.
  cbn. repeat split.
Qed.

Lemma StartGame_splits_roster_witness :
  exists gs,
    server.gameState match_80x24 = Some gs /\
    game.countPlayersOnSide gs protocol.TeamLeft = 1 /\
    game.countPlayersOnSide gs protocol.TeamRight = 1.
Proof.
  destruct (StartGame_splits_roster lobby_80x24 [1; 2] [1; 2] [1; 0]%nat 0 0
              (proj1 lobby_80x24_orders) lobby_80x24_shuffle) as [_ H].
  destruct H as (gs & Hgs & _ & _ & _ & Hl & Hr & _).
  - rewrite (proj2 (proj2 lobby_80x24_clients)). lia.
  - exists gs. split; [exact Hgs|].
    rewrite (proj2 (proj2 lobby_80x24_clients)) in Hl, Hr. split; [exact Hl | exact Hr].
Defined.







End ServerStates.

(** * Configuration *)

Section Configuration.

(** X30.  [ParseArgs] returns a configuration only for flag values
    that name exactly one role, a port from 1 to 65535 and at least one
    point to win, and then the configuration carries those values; an
    error of the flag parser is passed on. *)
Theorem ParseArgs_valid_config (parsed : string + config.Flags) :
  (forall cfg, config.ParseArgs parsed = inl cfg ->
     exists f, parsed = inr f /\
       cfg = config.mkConfig (config.flag_server f) (config.flag_join f)
               (config.flag_port f) (config.flag_points f) (config.flag_name f) /\
       (config.IsServer cfg = true <-> config.ServerAddr cfg = EmptyString) /\
       1 <= config.Port cfg <= 65535 /\ 1 <= config.PointsToWin cfg) /\
  (forall f, parsed = inr f ->
     (config.flag_server f = true <-> config.flag_join f = EmptyString) ->
     1 <= config.flag_port f <= 65535 -> 1 <= config.flag_points f ->
     exists cfg, config.ParseArgs parsed = inl cfg) /\
  (forall err, parsed = inl err -> config.ParseArgs parsed = inr err).
Proof.
  split; [|split].
  - intros cfg. destruct parsed as [err|f]; [discriminate|].
    unfold config.ParseArgs.
    destruct (String.eqb_spec (config.flag_join f) EmptyString) as [Hj|Hj],
      (config.flag_server f) eqn:Hs; cbn [negb andb]; try discriminate;
      destruct (Z.ltb_spec (config.flag_port f) 1); cbn [orb]; try discriminate;
      destruct (Z.gtb_spec (config.flag_port f) 65535); try discriminate;
      destruct (Z.ltb_spec (config.flag_points f) 1); try discriminate;
      intros [= <-]; exists f; cbn; rewrite ?Hs; repeat split; try lia; try easy.
  - intros f -> Hrole Hport Hpoints. unfold config.ParseArgs.
    destruct (String.eqb_spec (config.flag_join f) EmptyString) as [Hj|Hj],
      (config.flag_server f) eqn:Hs; cbn [negb andb];
      try (exfalso; destruct Hrole as [H1 H2]; (now apply Hj, H1) || (now specialize (H2 Hj)));
      destruct (Z.ltb_spec (config.flag_port f) 1); try lia;
      destruct (Z.gtb_spec (config.flag_port f) 65535); try lia;
      destruct (Z.ltb_spec (config.flag_points f) 1); try lia;
      cbn; eexists; reflexivity.
  - now intros err ->.
Qed.

Lemma ParseArgs_valid_config_witness :
  exists cfg, config.ParseArgs (inr host_flags) = inl cfg.
Proof.
  apply (proj1 (proj2 (ParseArgs_valid_config (inr host_flags))) host_flags eq_refl).
  - split; reflexivity.
  - cbn. lia.
  - cbn. lia.
Defined.

End Configuration.
